(** * Tanebi MCP server: a shallow embedding of [src/index.ts]

    The server is a protocol adapter: three tools ([list_ideas], [get_idea],
    [create_idea]) turn a tool call into one HTTP request against the Tanebi
    API and format the JSON answer as text.

    Modelling decisions, each taken from the TypeScript source:
    - JavaScript strings are [string]; template literals are concatenations;
      [Array.prototype.join] is [String.concat].
    - Numbers that are printed (ids, counts, HTTP status, page numbers) are
      integers [Z], printed as [Number.prototype.toString] prints them: the
      decimal numeral up to 2^53 - 1, and beyond that the shortest digits
      that give back the same double, in exponent form from 1e21.  Numbers
      that are only compared ([IdeaLine.position], raw tool arguments) are
      rationals [Q].
    - JSON data is the inductive [value]; an object is an association list in
      insertion order.  The TypeScript interfaces are records, and the
      unchecked cast [response.json() as Promise<T>] is a partial view from
      [value] into the record.
    - [async] code that can throw is written in a small monad [M] that reads
      the world (configuration and the network), logs every request handed
      to [fetch], and returns [Ok] or the thrown error.
    - [Array.prototype.sort] sorts the array it is called on: the formatter
      that calls it returns the idea object as it is left after the call. *)

From Stdlib Require Import ZArith QArith List String Ascii Bool Lia.
From Stdlib Require Import Permutation Sorted DecimalString.
Import ListNotations.

#[local] Open Scope string_scope.
#[local] Open Scope Z_scope.

(** ** JavaScript prelude *)

Module JS.

(** The decimal numeral of an integer. *)
Definition decimal (n : Z) : string :=
  NilZero.string_of_int (Z.to_int n).

(** [Number.MAX_SAFE_INTEGER]. *)
Definition MAX_SAFE_INTEGER : Z := 2 ^ 53 - 1.

(** The double nearest to the integer [n >= 0]: [n] itself when it has at
    most 53 bits, else [n] rounded to 53 significant bits, a tie going to
    the even one.  (Doubles are taken with an unbounded exponent: the
    numbers of the model stay below 2^1024.) *)
Definition to_double (n : Z) : Z :=
  let b := Z.log2 n in
  if b <=? 52 then n
  else
    let ulp := 2 ^ (b - 52) in
    let q := n / ulp in
    let r := n mod ulp in
    let q' := if 2 * r <? ulp then q
              else if ulp <? 2 * r then q + 1
              else if Z.even q then q else q + 1 in
    q' * ulp.

(** The integer with the fewest significant digits that the double [x]
    is the nearest double to.  [m] is the power of ten the digits are cut
    at, first that of the leading digit of [x]; at each length the
    candidates are the multiples of [m] on either side of [x], the nearer
    one winning when both give back [x], the even one on a tie. *)
Fixpoint shortest_from (x : Z) (m : Z) (fuel : nat) : Z :=
  match fuel with
  | O => x
  | S fuel' =>
      let lo := x / m * m in
      let hi := lo + m in
      let ok_lo := to_double lo =? x in
      let ok_hi := to_double hi =? x in
      if ok_lo && ok_hi then
        if x - lo <? hi - x then lo
        else if hi - x <? x - lo then hi
        else if Z.even (lo / m) then lo else hi
      else if ok_lo then lo
      else if ok_hi then hi
      else shortest_from x (m / 10) fuel'
  end.

Definition shortest (x : Z) : Z :=
  let n := String.length (decimal x) in
  shortest_from x (10 ^ Z.of_nat (n - 1)) n.

(** A numeral without its trailing zeros. *)
Fixpoint strip_zeros (s : string) : string :=
  match s with
  | EmptyString => EmptyString
  | String c rest =>
      match strip_zeros rest with
      | EmptyString =>
          if Ascii.eqb c "0" then EmptyString else String c EmptyString
      | r => String c r
      end
  end.

(** Exponent form: the first digit, the other significant digits after a
    point when there are any, and [e+] with the decimal exponent. *)
Definition exponential (c : Z) : string :=
  let ds := decimal c in
  let e := decimal (Z.of_nat (String.length ds - 1)) in
  match strip_zeros ds with
  | EmptyString => "0"
  | String d EmptyString => String d ("e+" ++ e)
  | String d rest => String d ("." ++ rest ++ "e+" ++ e)
  end.

(** [Number.prototype.toString] on a positive integer-valued double: the
    shortest digits, written out in full below 1e21 and in exponent form
    from there. *)
Definition print_double (x : Z) : string :=
  let c := shortest x in
  if c <? 10 ^ 21 then decimal c else exponential c.

(** [`${n}`] for an integer number [n]: the decimal numeral of a safe
    integer, and what the double nearest to [n] prints as beyond. *)
Definition Number_toString (n : Z) : string :=
  if Z.abs n <=? MAX_SAFE_INTEGER then decimal n
  else if n <? 0 then "-" ++ print_double (to_double (- n))
  else print_double (to_double n).

(** [arr.join(sep)]. *)
Definition join (sep : string) (arr : list string) : string :=
  String.concat sep arr.

(** Truthiness of a string: only the empty string is falsy. *)
Definition truthy (s : string) : bool :=
  match s with
  | EmptyString => false
  | String _ _ => true
  end.

(** [a || b] on a possibly undefined string. *)
Definition or_else (a : option string) (b : string) : string :=
  match a with
  | Some s => if truthy s then s else b
  | None => b
  end.

(** [sub] occurs in [s]. *)
Definition contains (sub s : string) : Prop :=
  exists pre post, s = pre ++ sub ++ post.

(** [s] ends with [suf]. *)
Definition ends_with (suf s : string) : Prop :=
  exists pre, s = pre ++ suf.

#[local] Set Warnings "-register-all".

(** JSON data.  An object lists its own properties in insertion order. *)
Inductive value : Type :=
| JNull
| JBool (b : bool)
| JNumber (q : Q)
| JString (s : string)
| JArray (elems : list value)
| JObject (props : list (string * value)).

Definition Obj : Type := list (string * value).

(** [o[k]] on an object; [None] is [undefined]. *)
Fixpoint get (k : string) (o : Obj) : option value :=
  match o with
  | [] => None
  | (k', v) :: rest => if String.eqb k k' then Some v else get k rest
  end.

Definition has_key (k : string) (o : Obj) : bool :=
  match get k o with Some _ => true | None => false end.

(** [o[k] = v]: overwrite an existing property in place, else append. *)
Fixpoint set (k : string) (v : value) (o : Obj) : Obj :=
  match o with
  | [] => [(k, v)]
  | (k', v') :: rest =>
      if String.eqb k k' then (k', v) :: rest else (k', v') :: set k v rest
  end.

Definition keys (o : Obj) : list string := map fst o.

(** [Number.isInteger(q)]. *)
Definition Number_isInteger (q : Q) : bool :=
  (Qnum q mod Zpos (Qden q)) =? 0.

(** The integer a number stands for, when it is one. *)
Definition to_integer (q : Q) : option Z :=
  if Number_isInteger q then Some (Qnum q / Zpos (Qden q)) else None.

(** Thrown values. *)
Inductive exn : Type :=
| Error (message : string)        (* [new Error(message)] *)
| TypeError (message : string)    (* property of undefined, [in] on a primitive *)
| SyntaxError (message : string)  (* [response.json()] on malformed text *)
| NetworkError (message : string) (* [fetch] rejected *)
| McpError (message : string)     (* arguments refused by a tool's schema *).

Inductive result (A : Type) : Type :=
| Ok (a : A)
| Throw (e : exn).
Arguments Ok {A} a.
Arguments Throw {A} e.

(** [k in v]: a [TypeError] on a primitive; an array has no string-named
    own property of the names used here. *)
Definition in_op (k : string) (v : value) : result bool :=
  match v with
  | JObject o => Ok (has_key k o)
  | JArray _ => Ok false
  | _ => Throw (TypeError "Cannot use 'in' operator")
  end.

(** [v.k] on a value already known to be an object or array. *)
Definition member (k : string) (v : value) : option value :=
  match v with
  | JObject o => get k o
  | _ => None
  end.

End JS.
Import JS.

(** ** Response types

  One module per TypeScript interface, so that fields keep their names.
  [to_value] is the JSON object with exactly the interface's properties;
  [of_value] is the typed reading of a JSON value that the casts in the
  source take for granted. *)

Module View.
(** Reading a value at an expected type; [None] when it is not of it. *)
Definition number (v : option value) : option Z :=
  match v with
  | Some (JNumber q) => to_integer q
  | _ => None
  end.

Definition rational (v : option value) : option Q :=
  match v with
  | Some (JNumber q) => Some q
  | _ => None
  end.

Definition str (v : option value) : option string :=
  match v with
  | Some (JString s) => Some s
  | _ => None
  end.

Definition boolean (v : option value) : option bool :=
  match v with
  | Some (JBool b) => Some b
  | _ => None
  end.

Definition nullable_str (v : option value) : option (option string) :=
  match v with
  | Some (JString s) => Some (Some s)
  | Some JNull => Some None
  | _ => None
  end.

Fixpoint traverse {A B : Type} (f : A -> option B) (l : list A)
  : option (list B) :=
  match l with
  | [] => Some []
  | a :: rest =>
      match f a, traverse f rest with
      | Some b, Some bs => Some (b :: bs)
      | _, _ => None
      end
  end.

Definition array {B : Type} (f : value -> option B) (v : option value)
  : option (list B) :=
  match v with
  | Some (JArray elems) => traverse f elems
  | _ => None
  end.

Definition object (v : option value) : option Obj :=
  match v with
  | Some (JObject o) => Some o
  | _ => None
  end.

Definition bind {A B : Type} (m : option A) (k : A -> option B) : option B :=
  match m with
  | Some a => k a
  | None => None
  end.
End View.

Declare Scope view_scope.
Delimit Scope view_scope with view.
Notation "x <-? m ; k" := (View.bind m (fun x => k))
(at level 61, m at next level, right associativity) : view_scope.

Definition num (n : Z) : value := JNumber (inject_Z n).

Module SimplifiedUser.
Record t : Type := mk {
  id : Z;
  display_name : string;
  avatar_path : option string
}.

Definition to_value (u : t) : value :=
  JObject [ ("id", num (id u));
            ("display_name", JString (display_name u));
            ("avatar_path",
              match avatar_path u with Some p => JString p | None => JNull end) ].

Definition of_value (v : value) : option t :=
  (o <-? View.object (Some v);
   i <-? View.number (get "id" o);
   n <-? View.str (get "display_name" o);
   a <-? View.nullable_str (get "avatar_path" o);
   Some (mk i n a))%view.
End SimplifiedUser.

Module IdeaSummary.
Record t : Type := mk {
  id : Z;
  title : string;
  visibility : string;
  current_stage : string;
  reactions_count : Z;
  comments_count : Z;
  is_bookmarked : bool;
  created_at : string;
  updated_at : string;
  user : SimplifiedUser.t
}.

Definition to_value (i : t) : value :=
  JObject [ ("id", num (id i));
            ("title", JString (title i));
            ("visibility", JString (visibility i));
            ("current_stage", JString (current_stage i));
            ("reactions_count", num (reactions_count i));
            ("comments_count", num (comments_count i));
            ("is_bookmarked", JBool (is_bookmarked i));
            ("created_at", JString (created_at i));
            ("updated_at", JString (updated_at i));
            ("user", SimplifiedUser.to_value (user i)) ].

Definition of_value (v : value) : option t :=
  (o <-? View.object (Some v);
   i <-? View.number (get "id" o);
   ti <-? View.str (get "title" o);
   vi <-? View.str (get "visibility" o);
   st <-? View.str (get "current_stage" o);
   rc <-? View.number (get "reactions_count" o);
   cc <-? View.number (get "comments_count" o);
   bm <-? View.boolean (get "is_bookmarked" o);
   ca <-? View.str (get "created_at" o);
   ua <-? View.str (get "updated_at" o);
   uv <-? get "user" o;
   u <-? SimplifiedUser.of_value uv;
   Some (mk i ti vi st rc cc bm ca ua u))%view.
End IdeaSummary.

Module IdeaLine.
Record t : Type := mk {
  id : Z;
  line_type : string;
  content : string;
  position : Q;
  comments_count : Z;
  created_at : string;
  updated_at : string
}.

Definition to_value (l : t) : value :=
  JObject [ ("id", num (id l));
            ("line_type", JString (line_type l));
            ("content", JString (content l));
            ("position", JNumber (position l));
            ("comments_count", num (comments_count l));
            ("created_at", JString (created_at l));
            ("updated_at", JString (updated_at l)) ].

Definition of_value (v : value) : option t :=
  (o <-? View.object (Some v);
   i <-? View.number (get "id" o);
   lt <-? View.str (get "line_type" o);
   c <-? View.str (get "content" o);
   p <-? View.rational (get "position" o);
   cc <-? View.number (get "comments_count" o);
   ca <-? View.str (get "created_at" o);
   ua <-? View.str (get "updated_at" o);
   Some (mk i lt c p cc ca ua))%view.
End IdeaLine.

Module Reaction.
Record t : Type := mk {
  id : Z;
  reaction_type : string;
  created_at : string;
  user : SimplifiedUser.t
}.

Definition to_value (r : t) : value :=
  JObject [ ("id", num (id r));
            ("reaction_type", JString (reaction_type r));
            ("created_at", JString (created_at r));
            ("user", SimplifiedUser.to_value (user r)) ].

Definition of_value (v : value) : option t :=
  (o <-? View.object (Some v);
   i <-? View.number (get "id" o);
   rt <-? View.str (get "reaction_type" o);
   ca <-? View.str (get "created_at" o);
   uv <-? get "user" o;
   u <-? SimplifiedUser.of_value uv;
   Some (mk i rt ca u))%view.
End Reaction.

Module IdeaDetail.
Record t : Type := mk {
  id : Z;
  title : string;
  visibility : string;
  current_stage : string;
  reactions_count : Z;
  is_bookmarked : bool;
  created_at : string;
  updated_at : string;
  user : SimplifiedUser.t;
  lines : list IdeaLine.t;
  reactions : list Reaction.t
}.

(** The object after [idea.lines] has been overwritten in place. *)
Definition with_lines (ls : list IdeaLine.t) (i : t) : t :=
  mk (id i) (title i) (visibility i) (current_stage i) (reactions_count i)
     (is_bookmarked i) (created_at i) (updated_at i) (user i) ls (reactions i).

Definition to_value (i : t) : value :=
  JObject [ ("id", num (id i));
            ("title", JString (title i));
            ("visibility", JString (visibility i));
            ("current_stage", JString (current_stage i));
            ("reactions_count", num (reactions_count i));
            ("is_bookmarked", JBool (is_bookmarked i));
            ("created_at", JString (created_at i));
            ("updated_at", JString (updated_at i));
            ("user", SimplifiedUser.to_value (user i));
            ("lines", JArray (map IdeaLine.to_value (lines i)));
            ("reactions", JArray (map Reaction.to_value (reactions i))) ].

Definition of_value (v : value) : option t :=
  (o <-? View.object (Some v);
   i <-? View.number (get "id" o);
   ti <-? View.str (get "title" o);
   vi <-? View.str (get "visibility" o);
   st <-? View.str (get "current_stage" o);
   rc <-? View.number (get "reactions_count" o);
   bm <-? View.boolean (get "is_bookmarked" o);
   ca <-? View.str (get "created_at" o);
   ua <-? View.str (get "updated_at" o);
   uv <-? get "user" o;
   u <-? SimplifiedUser.of_value uv;
   ls <-? View.array IdeaLine.of_value (get "lines" o);
   rs <-? View.array Reaction.of_value (get "reactions" o);
   Some (mk i ti vi st rc bm ca ua u ls rs))%view.
End IdeaDetail.

Module PaginationMeta.
Record t : Type := mk {
  current_page : Z;
  total_pages : Z;
  total_count : Z
}.

Definition to_value (m : t) : value :=
  JObject [ ("current_page", num (current_page m));
            ("total_pages", num (total_pages m));
            ("total_count", num (total_count m)) ].

Definition of_value (v : value) : option t :=
  (o <-? View.object (Some v);
   cp <-? View.number (get "current_page" o);
   tp <-? View.number (get "total_pages" o);
   tc <-? View.number (get "total_count" o);
   Some (mk cp tp tc))%view.
End PaginationMeta.

Module IdeasListResponse.
Record t : Type := mk {
  ideas : list IdeaSummary.t;
  meta : PaginationMeta.t
}.

Definition to_value (r : t) : value :=
  JObject [ ("ideas", JArray (map IdeaSummary.to_value (ideas r)));
            ("meta", PaginationMeta.to_value (meta r)) ].

Definition of_value (v : value) : option t :=
  (o <-? View.object (Some v);
   xs <-? View.array IdeaSummary.of_value (get "ideas" o);
   mv <-? get "meta" o;
   m <-? PaginationMeta.of_value mv;
   Some (mk xs m))%view.
End IdeasListResponse.

(** ** Configuration *)

Module Config.

Record process_env : Type := {
  TANEBI_API_KEY : option string;
  TANEBI_API_BASE_URL : option string
}.

(** [s] is a run of slashes up to its end (the empty run included). *)
Fixpoint slashes_to_end (s : string) : bool :=
  match s with
  | EmptyString => true
  | String c rest => Ascii.eqb c "/" && slashes_to_end rest
  end.

(** [s.replace(/\/+$/, "")]: the leftmost place from which one or more
    slashes reach the end of the string is cut off. *)
Fixpoint replace_trailing_slashes (s : string) : string :=
  match s with
  | EmptyString => EmptyString
  | String c rest =>
      if slashes_to_end s then EmptyString
      else String c (replace_trailing_slashes rest)
  end.

Definition DEFAULT_BASE_URL : string := "https://tanebi.app".

(** [process.env.TANEBI_API_BASE_URL?.replace(/\/+$/, "") || "https://tanebi.app"]. *)
Definition API_BASE_URL (e : process_env) : string :=
  or_else (option_map replace_trailing_slashes (TANEBI_API_BASE_URL e))
          DEFAULT_BASE_URL.

(** [const API_KEY = process.env.TANEBI_API_KEY] under the check
    [if (!API_KEY) { console.error(...); process.exit(1); }]: the key the
    module goes on with, or [None] when the process exits there. *)
Definition API_KEY (e : process_env) : option string :=
  match TANEBI_API_KEY e with
  | Some k => if truthy k then Some k else None
  | None => None
  end.

End Config.

(** ** API client *)

Module Request.
(** What [fetch] is handed.  [body] is the object given to
    [JSON.stringify]; [None] is [undefined]. *)
Record t : Type := mk {
  url : string;
  method : string;
  headers : list (string * string);
  body : option Obj
}.
End Request.

Module Response.
(** What [fetch] resolves to: the status line and what the two body readers
    [text()] and [json()] give. *)
Record t : Type := mk {
  status : Z;
  statusText : string;
  text : string;
  json : result value
}.

(** [response.ok]: the status is in the range 200 to 299. *)
Definition ok (r : t) : bool := (200 <=? status r) && (status r <=? 299).
End Response.

Module ApiRequestOptions.
Record t : Type := mk {
  method : option string;
  body : option Obj
}.
Definition empty : t := mk None None.
End ApiRequestOptions.

(** The world a handler runs in: the configuration read at startup and the
    remote side, which answers a request knowing the requests before it. *)
Record World : Type := {
  API_KEY : string;
  API_BASE_URL : string;
  fetch : list Request.t -> Request.t -> result Response.t
}.

(** Computations that read the world, log the requests they send, and
    return or throw. *)
Definition M (A : Type) : Type :=
  World -> list Request.t -> result A * list Request.t.

Definition ret {A : Type} (a : A) : M A := fun _ log => (Ok a, log).

Definition throw {A : Type} (e : exn) : M A := fun _ log => (Throw e, log).

Definition bind {A B : Type} (m : M A) (k : A -> M B) : M B :=
  fun w log =>
    match m w log with
    | (Ok a, log') => k a w log'
    | (Throw e, log') => (Throw e, log')
    end.

Definition lift {A : Type} (r : result A) : M A := fun _ log => (r, log).

Definition ask : M World := fun w log => (Ok w, log).

(** [await fetch(url, init)]. *)
Definition do_fetch (rq : Request.t) : M Response.t :=
  fun w log => (fetch w log rq, (log ++ [rq])%list).

Declare Scope m_scope.
Delimit Scope m_scope with M.
Notation "x <- m ;; k" := (bind m (fun x => k))
  (at level 61, m at next level, right associativity) : m_scope.

(** [apiRequest<T>(path, options = {})], up to the cast to [T]. *)
Definition apiRequest (path : string) (options : ApiRequestOptions.t)
  : M value :=
  (let method :=
     match ApiRequestOptions.method options with Some m => m | None => "GET" end in
   let body := ApiRequestOptions.body options in
   w <- ask ;;
   let headers :=
     ([ ("X-API-Key", API_KEY w); ("Accept", "application/json") ]
      ++ match body with
         | Some _ => [ ("Content-Type", "application/json") ]
         | None => []
         end)%list in
   response <- do_fetch (Request.mk (API_BASE_URL w ++ path) method headers body) ;;
   if negb (Response.ok response) then
     let errorBody := Response.text response in
     throw (Error ("API request failed: "
                   ++ Number_toString (Response.status response) ++ " "
                   ++ Response.statusText response ++ " - " ++ errorBody))
   else lift (Response.json response))%M.

(** The cast [as Promise<T>].  On a value of the type, what follows reads
    its properties as declared.  A value that is not of the type fails
    here with a [TypeError]; the source fails so when it reads a property
    of [undefined] or [null], and otherwise goes on to print [undefined],
    which is not modelled. *)
Definition cast {T : Type} (of_value : value -> option T) (v : value) : M T :=
  match of_value v with
  | Some t => ret t
  | None => throw (TypeError "Cannot read properties of undefined")
  end.

(** ** Startup

    The module's top level and [main]: the key check, which exits with
    code 1, then [await server.connect(transport)] under
    [main().catch(... process.exit(1))].  [connect] is what connecting the
    transport comes to, [remote] the remote side the handlers will talk
    to. *)
Inductive startup : Type :=
| Exit (code : Z)
| Serving (w : World).

Definition main (e : Config.process_env) (connect : result unit)
  (remote : list Request.t -> Request.t -> result Response.t) : startup :=
  match Config.API_KEY e with
  | None => Exit 1
  | Some key =>
      match connect with
      | Throw _ => Exit 1
      | Ok _ =>
          Serving {| API_KEY := key;
                     API_BASE_URL := Config.API_BASE_URL e;
                     fetch := remote |}
      end
  end.

(** ** Array.prototype.sort

    [arr.sort(comparefn)] is a stable sort: [a] is put before [b] when
    [comparefn(a, b) < 0], and elements that compare as equal keep their
    order.  It is written here as an insertion sort; [sort_unique] below
    shows that any other stable sort gives the same array. *)

Section ArraySort.
Context {A : Type} (comparefn : A -> A -> Q).

(** [comparefn(a, b) < 0]. *)
Definition negative (a b : A) : bool := Qnum (comparefn a b) <? 0.

Fixpoint insert (x : A) (l : list A) : list A :=
  match l with
  | [] => [x]
  | y :: rest => if negative y x then y :: insert x rest else x :: y :: rest
  end.

Definition Array_sort (l : list A) : list A := fold_right insert [] l.
End ArraySort.

(** ** Formatters *)

(** The line feed and the blank line between paragraphs. *)
Definition LF : string := String "010" "".
Definition LFLF : string := LF ++ LF.

Definition formatIdeaSummary (idea : IdeaSummary.t) : string :=
  join LF
    [ "[ID: " ++ Number_toString (IdeaSummary.id idea) ++ "] "
        ++ IdeaSummary.title idea;
      "  Stage: " ++ IdeaSummary.current_stage idea ++ " | Visibility: "
        ++ IdeaSummary.visibility idea;
      "  Author: " ++ SimplifiedUser.display_name (IdeaSummary.user idea);
      "  Reactions: " ++ Number_toString (IdeaSummary.reactions_count idea)
        ++ " | Comments: " ++ Number_toString (IdeaSummary.comments_count idea);
      "  Created: " ++ IdeaSummary.created_at idea ].

Definition header (idea : IdeaDetail.t) : string :=
  join LF
    [ "# " ++ IdeaDetail.title idea;
      "";
      "ID: " ++ Number_toString (IdeaDetail.id idea);
      "Stage: " ++ IdeaDetail.current_stage idea ++ " | Visibility: "
        ++ IdeaDetail.visibility idea;
      "Author: " ++ SimplifiedUser.display_name (IdeaDetail.user idea);
      "Reactions: " ++ Number_toString (IdeaDetail.reactions_count idea);
      "Created: " ++ IdeaDetail.created_at idea ++ " | Updated: "
        ++ IdeaDetail.updated_at idea ].

(** [(a, b) => a.position - b.position]. *)
Definition by_position (a b : IdeaLine.t) : Q :=
  (IdeaLine.position a - IdeaLine.position b)%Q.

(** The callback of [.map] over the lines. *)
Definition render_line (line : IdeaLine.t) : string :=
  let prefix :=
    if String.eqb (IdeaLine.line_type line) "heading" then "### " else "" in
  let commentTag :=
    if 0 <? IdeaLine.comments_count line
    then " [" ++ Number_toString (IdeaLine.comments_count line) ++ " comments]"
    else "" in
  prefix ++ IdeaLine.content line ++ commentTag.

Definition CONTENT_HEADING : string := LFLF ++ "## Content" ++ LFLF.
Definition NO_CONTENT : string := LFLF ++ "(No content yet)".
Definition REACTIONS_HEADING : string := LFLF ++ "## Reactions" ++ LFLF.

(** The [content] constant, together with the idea object as the
    expression leaves it: [idea.lines.sort(...)] reorders [idea.lines]
    itself and returns that same array. *)
Definition content (idea : IdeaDetail.t) : string * IdeaDetail.t :=
  if (0 <? List.length (IdeaDetail.lines idea))%nat then
    let sorted := Array_sort by_position (IdeaDetail.lines idea) in
    (CONTENT_HEADING ++ join LFLF (map render_line sorted),
     IdeaDetail.with_lines sorted idea)
  else (NO_CONTENT, idea).

(** The callback of [.map] over the reactions. *)
Definition render_reaction (r : Reaction.t) : string :=
  "- " ++ Reaction.reaction_type r ++ " by "
       ++ SimplifiedUser.display_name (Reaction.user r).

(** The [reactions] constant. *)
Definition reactions (idea : IdeaDetail.t) : string :=
  if (0 <? List.length (IdeaDetail.reactions idea))%nat then
    REACTIONS_HEADING ++ join LF (map render_reaction (IdeaDetail.reactions idea))
  else "".

(** [formatIdeaDetail(idea)]: the text returned and the idea object after
    the call. *)
Definition formatIdeaDetail_run (idea : IdeaDetail.t) : string * IdeaDetail.t :=
  let h := header idea in
  let '(c, idea') := content idea in
  let r := reactions idea' in
  (h ++ c ++ r, idea').

Definition formatIdeaDetail (idea : IdeaDetail.t) : string :=
  fst (formatIdeaDetail_run idea).

(** [formatIdeaSummary] reads its argument only; for symmetry, the idea
    object after the call. *)
Definition formatIdeaSummary_run (idea : IdeaSummary.t)
  : string * IdeaSummary.t :=
  (formatIdeaSummary idea, idea).

(** ** Parameter schemas

    The schema library's builders, as far as the three tools use them.  A
    number schema is the list of its checks and its default; parsing runs
    every check and fails when one of them does. *)

Module Zod.

Inductive check : Type :=
| Int                 (* [.int()] *)
| Positive            (* [.positive()] *)
| Max (bound : Q)     (* [.max(bound)] *).

Record ZodNumber : Type := {
  checks : list check;
  number_default : option Q
}.

Definition number : ZodNumber := {| checks := []; number_default := None |}.

Definition with_check (c : check) (s : ZodNumber) : ZodNumber :=
  {| checks := (checks s ++ [c])%list; number_default := number_default s |}.

Definition int : ZodNumber -> ZodNumber := with_check Int.
Definition positive : ZodNumber -> ZodNumber := with_check Positive.
Definition max (bound : Q) : ZodNumber -> ZodNumber := with_check (Max bound).

Definition default (d : Q) (s : ZodNumber) : ZodNumber :=
  {| checks := checks s; number_default := Some d |}.

Definition passes (q : Q) (c : check) : bool :=
  match c with
  | Int => Number_isInteger q
  | Positive => negb (Qle_bool q 0)
  | Max bound => Qle_bool q bound
  end.

(** Parsing an argument that may be missing: a missing one takes the
    default, anything but a number is refused, a number must pass every
    check. *)
Definition parse_number (s : ZodNumber) (input : option value) : option Q :=
  let data :=
    match input with
    | None => option_map JNumber (number_default s)
    | Some _ => input
    end in
  match data with
  | Some (JNumber q) => if forallb (passes q) (checks s) then Some q else None
  | _ => None
  end.

Record ZodString : Type := {
  min_length : nat;
  is_optional : bool
}.

Definition string : ZodString := {| min_length := 0; is_optional := false |}.
Definition min (n : nat) (s : ZodString) : ZodString :=
  {| min_length := n; is_optional := is_optional s |}.
Definition optional (s : ZodString) : ZodString :=
  {| min_length := min_length s; is_optional := true |}.

(** [Some None] is an accepted missing argument. *)
Definition parse_string (s : ZodString) (input : option value)
  : option (option String.string) :=
  match input with
  | None => if is_optional s then Some None else None
  | Some (JString x) =>
      if (min_length s <=? String.length x)%nat then Some (Some x) else None
  | Some _ => None
  end.

Record ZodEnum : Type := {
  options : list String.string;
  enum_default : option String.string
}.

Definition enum (opts : list String.string) : ZodEnum :=
  {| options := opts; enum_default := None |}.
Definition enum_with_default (d : String.string) (s : ZodEnum) : ZodEnum :=
  {| options := options s; enum_default := Some d |}.

Definition parse_enum (s : ZodEnum) (input : option value)
  : option String.string :=
  let data :=
    match input with
    | None => option_map JString (enum_default s)
    | Some _ => input
    end in
  match data with
  | Some (JString x) =>
      if existsb (String.eqb x) (options s) then Some x else None
  | _ => None
  end.

End Zod.

(** ** Tools *)

Module ListIdeas.
Definition page : Zod.ZodNumber :=
  Zod.default 1 (Zod.positive (Zod.int Zod.number)).
Definition per_page : Zod.ZodNumber :=
  Zod.default 20 (Zod.max 100 (Zod.positive (Zod.int Zod.number))).

Record args : Type := { page_arg : Z; per_page_arg : Z }.

Definition parse (arguments : Obj) : option args :=
  (p <-? Zod.parse_number page (get "page" arguments);
   n <-? Zod.parse_number per_page (get "per_page" arguments);
   p' <-? to_integer p;
   n' <-? to_integer n;
   Some {| page_arg := p'; per_page_arg := n' |})%view.
End ListIdeas.

Module GetIdea.
Definition idea_id : Zod.ZodNumber := Zod.positive (Zod.int Zod.number).

Definition parse (arguments : Obj) : option Z :=
  (i <-? Zod.parse_number idea_id (get "idea_id" arguments);
   to_integer i)%view.
End GetIdea.

Module CreateIdea.
Definition title : Zod.ZodString := Zod.min 1 Zod.string.
Definition content : Zod.ZodString := Zod.optional Zod.string.
Definition visibility : Zod.ZodEnum :=
  Zod.enum_with_default "public" (Zod.enum ["public"; "private"]).

Record args : Type := {
  title_arg : string;
  content_arg : option string;
  visibility_arg : string
}.

Definition parse (arguments : Obj) : option args :=
  (t <-? Zod.parse_string title (get "title" arguments);
   t' <-? t;
   c <-? Zod.parse_string content (get "content" arguments);
   v <-? Zod.parse_enum visibility (get "visibility" arguments);
   Some {| title_arg := t'; content_arg := c; visibility_arg := v |})%view.
End CreateIdea.

(** The text of the single text item a handler returns. *)
Definition list_ideas (page per_page : Z) : M string :=
  (data <- apiRequest ("/api/v1/ideas?page=" ++ Number_toString page
                         ++ "&per_page=" ++ Number_toString per_page)
                      ApiRequestOptions.empty ;;
   data <- cast IdeasListResponse.of_value data ;;
   let summaries :=
     join LFLF (map formatIdeaSummary (IdeasListResponse.ideas data)) in
   let meta := IdeasListResponse.meta data in
   let pagination :=
     LF ++ "Page " ++ Number_toString (PaginationMeta.current_page meta)
        ++ " of " ++ Number_toString (PaginationMeta.total_pages meta)
        ++ " (" ++ Number_toString (PaginationMeta.total_count meta)
        ++ " total ideas)" in
   ret (summaries ++ LF ++ pagination))%M.

(** ["idea" in data ? data.idea : data]. *)
Definition unwrap (data : value) : M value :=
  (wrapped <- lift (in_op "idea" data) ;;
   if wrapped : bool then
     match member "idea" data with
     | Some idea => ret idea
     | None => throw (TypeError "Cannot read properties of undefined")
     end
   else ret data)%M.

Definition get_idea (idea_id : Z) : M string :=
  (data <- apiRequest ("/api/v1/ideas/" ++ Number_toString idea_id)
                      ApiRequestOptions.empty ;;
   idea <- unwrap data ;;
   idea <- cast IdeaDetail.of_value idea ;;
   ret (formatIdeaDetail idea))%M.

(** The request body of [create_idea]: [{ title, visibility }], and
    [body.content = content] under [if (content)]. *)
Definition create_idea_body (title : string) (content : option string)
  (visibility : string) : Obj :=
  let body := [ ("title", JString title); ("visibility", JString visibility) ] in
  match content with
  | Some c => if truthy c then set "content" (JString c) body else body
  | None => body
  end.

Definition create_idea (title : string) (content : option string)
  (visibility : string) : M string :=
  (let body := create_idea_body title content visibility in
   data <- apiRequest "/api/v1/ideas"
                      (ApiRequestOptions.mk (Some "POST") (Some body)) ;;
   idea <- unwrap data ;;
   idea <- cast IdeaDetail.of_value idea ;;
   ret ("Idea created successfully!" ++ LFLF ++ formatIdeaDetail idea))%M.

(** A tool call as the server answers it: the arguments are parsed against
    the tool's schema, and only parsed arguments reach the handler. *)
Definition INVALID_PARAMS : exn := McpError "Invalid arguments".

Definition call_tool (name : string) (arguments : Obj) : M string :=
  if String.eqb name "list_ideas" then
    match ListIdeas.parse arguments with
    | Some a => list_ideas (ListIdeas.page_arg a) (ListIdeas.per_page_arg a)
    | None => throw INVALID_PARAMS
    end
  else if String.eqb name "get_idea" then
    match GetIdea.parse arguments with
    | Some i => get_idea i
    | None => throw INVALID_PARAMS
    end
  else if String.eqb name "create_idea" then
    match CreateIdea.parse arguments with
    | Some a => create_idea (CreateIdea.title_arg a) (CreateIdea.content_arg a)
                            (CreateIdea.visibility_arg a)
    | None => throw INVALID_PARAMS
    end
  else throw (McpError "Tool not found").

(** * Properties *)

(** ** Strings *)

Section StringFacts.

Lemma append_assoc (a b c : string) : (a ++ b) ++ c = a ++ (b ++ c).
Proof. induction a as [|x a IH]; simpl; [reflexivity | now rewrite IH]. Qed.

Lemma append_nil_r (a : string) : a ++ "" = a.
Proof. induction a as [|x a IH]; simpl; [reflexivity | now rewrite IH]. Qed.

Lemma contains_refl (s : string) : contains s s.
Proof. exists "", "". simpl. now rewrite append_nil_r. Qed.

Lemma contains_app_l (x a b : string) : contains x a -> contains x (a ++ b).
Proof.
  intros (pre & post & ->). exists pre, (post ++ b).
  now rewrite !append_assoc.
Qed.

Lemma contains_app_r (x a b : string) : contains x b -> contains x (a ++ b).
Proof.
  intros (pre & post & ->). exists (a ++ pre), post.
  now rewrite !append_assoc.
Qed.

Lemma contains_join (sep x : string) (l : list string) :
  In x l -> contains x (join sep l).
Proof.
  unfold join. induction l as [|y l IH]; intros Hin; [destruct Hin|].
  destruct l as [|z l].
  - destruct Hin as [->|[]]. apply contains_refl.
  - change (String.concat sep (y :: z :: l))
      with (y ++ sep ++ String.concat sep (z :: l)).
    destruct Hin as [->|Hin].
    + apply contains_app_l, contains_refl.
    + apply contains_app_r, contains_app_r, IH, Hin.
Qed.

Lemma ends_with_app (suf a b : string) : ends_with suf b -> ends_with suf (a ++ b).
Proof. intros (pre & ->). exists (a ++ pre). now rewrite append_assoc. Qed.

Lemma ends_with_refl (s : string) : ends_with s s.
Proof. now exists "". Qed.

End StringFacts.

(** [s.includes(sub)], to decide [contains] on given strings. *)
Fixpoint includes (sub s : string) : bool :=
  String.prefix sub s
  || match s with
     | EmptyString => false
     | String _ rest => includes sub rest
     end.

Lemma prefix_app (a b : string) : String.prefix a (a ++ b) = true.
Proof.
  induction a as [|x a IH]; simpl; [now destruct b|].
  destruct (ascii_dec x x) as [_|n]; [exact IH | now destruct n].
Qed.

Lemma contains_includes (sub s : string) : contains sub s -> includes sub s = true.
Proof.
  intros (pre & post & ->). induction pre as [|x pre IH].
  - change ("" ++ sub ++ post) with (sub ++ post).
    assert (U : forall t, String.prefix sub t = true -> includes sub t = true).
    { intros t Ht. destruct t; cbn [includes]; now rewrite Ht. }
    apply U, prefix_app.
  - change (includes sub (String x pre ++ sub ++ post))
      with (String.prefix sub (String x (pre ++ sub ++ post))
            || includes sub (pre ++ sub ++ post)).
    rewrite IH. apply orb_true_r.
Qed.

(** ** Printed numbers *)

(** The digits chosen for a double give that double back. *)
Lemma shortest_from_round_trip (x m : Z) (fuel : nat) :
  to_double x = x -> to_double (shortest_from x m fuel) = x.
Proof.
  intros Hx. revert m. induction fuel as [|fuel IH]; intros m; [exact Hx|].
  cbn [shortest_from].
  destruct (Z.eqb_spec (to_double (x / m * m)) x) as [Hlo|_];
    destruct (Z.eqb_spec (to_double (x / m * m + m)) x) as [Hhi|_];
    cbn [andb]; auto.
  destruct (x - x / m * m <? x / m * m + m - x); [exact Hlo|].
  destruct (x / m * m + m - x <? x - x / m * m); [exact Hhi|].
  now destruct (Z.even (x / m * m / m)).
Qed.

Lemma shortest_round_trip (x : Z) :
  to_double x = x -> to_double (shortest x) = x.
Proof. apply shortest_from_round_trip. Qed.

Example Number_toString_samples :
  map Number_toString
      [0; -7; 422; 2 ^ 53 - 1; 2 ^ 53; 2 ^ 53 + 1; 2 ^ 60; 2 ^ 64; 10 ^ 20;
       10 ^ 21 - 1; 10 ^ 21; 2 ^ 70; 12345 * 10 ^ 21; - 10 ^ 21]
  = ["0"; "-7"; "422"; "9007199254740991"; "9007199254740992";
     "9007199254740992"; "1152921504606847000"; "18446744073709552000";
     "100000000000000000000"; "1e+21"; "1e+21"; "1.1805916207174113e+21";
     "1.2345e+25"; "-1e+21"].
Proof. vm_compute. reflexivity. Qed.

(** On safe integers the shortest digits are the decimal numeral. *)
Example print_double_samples :
  map (fun n => print_double (to_double n)) [1; 42; 422; 1000; 2 ^ 53 - 1]
  = map decimal [1; 42; 422; 1000; 2 ^ 53 - 1].
Proof. vm_compute. reflexivity. Qed.

(** ** The base URL *)

Section BaseUrl.
Import Config.

Lemma strip_empty (s : string) :
  replace_trailing_slashes s = "" -> slashes_to_end s = true.
Proof.
  destruct s as [|c s]; [reflexivity|].
  cbn [replace_trailing_slashes].
  destruct (slashes_to_end (String c s)); [reflexivity | discriminate].
Qed.

Lemma strip_decompose (s : string) :
  exists tail, s = replace_trailing_slashes s ++ tail
               /\ slashes_to_end tail = true.
Proof.
  induction s as [|c s (tail & Hs & Ht)]; [now exists ""|].
  cbn [replace_trailing_slashes].
  destruct (slashes_to_end (String c s)) eqn:E.
  - now exists (String c s).
  - exists tail. split; [simpl; now rewrite <- Hs | exact Ht].
Qed.

Lemma strip_no_trailing_slash (s pre : string) :
  replace_trailing_slashes s = pre ++ "/" -> False.
Proof.
  revert pre. induction s as [|c s IH]; intros pre.
  - destruct pre; discriminate.
  - cbn [replace_trailing_slashes].
    destruct (slashes_to_end (String c s)) eqn:E.
    + destruct pre; discriminate.
    + destruct pre as [|x pre]; simpl; intros H; injection H as Hc Hs.
      * apply strip_empty in Hs. subst c. simpl in E.
        rewrite Hs in E. discriminate.
      * eapply IH, Hs.
Qed.

End BaseUrl.

(** [r] is [v] with its trailing slashes stripped: [v] is [r] followed by
    slashes only, and [r] does not end in a slash. *)
Definition stripped (v r : string) : Prop :=
  (exists tail, v = r ++ tail /\ Config.slashes_to_end tail = true)
  /\ ~ ends_with "/" r.

Lemma replace_trailing_slashes_stripped (v : string) :
  stripped v (Config.replace_trailing_slashes v).
Proof.
  split; [apply strip_decompose|].
  intros (pre & H). exact (strip_no_trailing_slash _ _ H).
Qed.

(** C8, as stated, fails: when [TANEBI_API_BASE_URL] is ["/"], the value
    with its trailing slashes stripped is the empty string, and the base URL
    is the default [https://tanebi.app], not that stripped value. *)
Lemma API_BASE_URL_slash_counterexample :
  exists (v : string) (e : Config.process_env),
    Config.TANEBI_API_BASE_URL e = Some v
    /\ Config.replace_trailing_slashes v = ""
    /\ Config.API_BASE_URL e = "https://tanebi.app"
    /\ Config.API_BASE_URL e <> Config.replace_trailing_slashes v.
Proof.
  exists "/", {| Config.TANEBI_API_KEY := Some "key";
                 Config.TANEBI_API_BASE_URL := Some "/" |}.
  repeat split. discriminate.
Qed.

(** C8, amended: the base URL is the default [https://tanebi.app] when
    [TANEBI_API_BASE_URL] is unset; for a set value [v] it is [v] with its
    trailing slashes stripped when that is not empty, and the default when
    it is empty ([v] is empty or slashes only). *)
Theorem API_BASE_URL_spec :
  forall (key : option string) (v : string),
    let strip := Config.replace_trailing_slashes v in
    Config.API_BASE_URL {| Config.TANEBI_API_KEY := key;
                           Config.TANEBI_API_BASE_URL := None |}
      = "https://tanebi.app"
    /\ stripped v strip
    /\ Config.API_BASE_URL {| Config.TANEBI_API_KEY := key;
                              Config.TANEBI_API_BASE_URL := Some v |}
       = (if String.eqb strip "" then "https://tanebi.app" else strip)
    /\ (strip = "" <-> Config.slashes_to_end v = true).
Proof.
  intros key v strip. split; [reflexivity|].
  split; [apply replace_trailing_slashes_stripped|].
  split.
  - unfold Config.API_BASE_URL, or_else; cbn [option_map Config.TANEBI_API_BASE_URL].
    fold strip. now destruct strip.
  - split; [apply strip_empty|].
    subst strip. intros H. destruct v as [|c v]; [reflexivity|].
    cbn [Config.replace_trailing_slashes]. now rewrite H.
Qed.

(** ** Sorting *)

Section SortFacts.
Context {A : Type} (comparefn : A -> A -> Q) (key : A -> Q).

(** The comparison function orders by a key, as [a.key - b.key] does. *)
Hypothesis negative_key :
  forall a b, negative comparefn a b = true <-> (key a < key b)%Q.

Definition ascending_by (l : list A) : Prop :=
  StronglySorted (fun a b => (key a <= key b)%Q) l.

Definition at_key (q : Q) (a : A) : bool := Qeq_bool (key a) q.

(** Two arrays list the elements of every key in the same order. *)
Definition same_order_per_key (l1 l2 : list A) : Prop :=
  forall q, filter (at_key q) l1 = filter (at_key q) l2.

Lemma negative_false (a b : A) :
  negative comparefn a b = false <-> (key b <= key a)%Q.
Proof.
  split; intros H.
  - apply Qnot_lt_le. intros Hlt. apply negative_key in Hlt. congruence.
  - destruct (negative comparefn a b) eqn:E; [|reflexivity].
    apply negative_key in E. exfalso. eapply Qlt_not_le; eassumption.
Qed.

Lemma insert_perm (x : A) (l : list A) : Permutation (insert comparefn x l) (x :: l).
Proof.
  induction l as [|y l IH]; simpl; [reflexivity|].
  destruct (negative comparefn y x); [|reflexivity].
  rewrite IH. apply perm_swap.
Qed.

Lemma sort_perm (l : list A) : Permutation (Array_sort comparefn l) l.
Proof.
  induction l as [|x l IH]; simpl; [constructor|].
  rewrite insert_perm. now constructor.
Qed.

Lemma insert_sorted (x : A) (l : list A) :
  ascending_by l -> ascending_by (insert comparefn x l).
Proof.
  unfold ascending_by. induction 1 as [|y l Hl IH Hy]; simpl.
  - repeat constructor.
  - destruct (negative comparefn y x) eqn:E.
    + constructor; [exact IH|].
      apply negative_key in E.
      eapply Permutation_Forall; [symmetry; apply insert_perm|].
      constructor; [now apply Qlt_le_weak | exact Hy].
    + apply negative_false in E.
      constructor; [now constructor|].
      constructor; [exact E|].
      eapply Forall_impl; [|exact Hy].
      intros z Hz. eapply Qle_trans; eassumption.
Qed.

Lemma sort_sorted (l : list A) : ascending_by (Array_sort comparefn l).
Proof.
  induction l as [|x l IH]; simpl; [constructor | now apply insert_sorted].
Qed.

Lemma insert_stable (x : A) (l : list A) :
  same_order_per_key (insert comparefn x l) (x :: l).
Proof.
  intros q. induction l as [|y l IH]; [reflexivity|].
  cbn [insert]. destruct (negative comparefn y x) eqn:E; [|reflexivity].
  cbn [filter] in *. rewrite IH.
  unfold at_key. destruct (Qeq_bool (key y) q) eqn:Ey,
    (Qeq_bool (key x) q) eqn:Ex; try reflexivity.
  exfalso. apply negative_key in E.
  apply Qeq_bool_eq in Ey, Ex. rewrite Ey, Ex in E.
  exact (Qlt_irrefl _ E).
Qed.

Lemma sort_stable (l : list A) : same_order_per_key (Array_sort comparefn l) l.
Proof.
  intros q. induction l as [|x l IH]; [reflexivity|].
  cbn [Array_sort fold_right]. fold (Array_sort comparefn l).
  rewrite insert_stable. cbn [filter]. now rewrite IH.
Qed.

Lemma sort_of_sorted (l : list A) : ascending_by l -> Array_sort comparefn l = l.
Proof.
  unfold ascending_by. induction 1 as [|x l Hl IH Hx]; [reflexivity|].
  cbn [Array_sort fold_right]. fold (Array_sort comparefn l). rewrite IH.
  destruct l as [|y l]; [reflexivity|]. cbn [insert].
  inversion Hx as [|? ? Hxy _]; subst.
  apply negative_false in Hxy. now rewrite Hxy.
Qed.

(** An ascending array is determined by the order of its elements within
    each key: two stable sorts of one array agree. *)
Lemma sort_unique (l1 l2 : list A) :
  ascending_by l1 -> ascending_by l2 -> same_order_per_key l1 l2 -> l1 = l2.
Proof.
  unfold ascending_by. intros S1. revert l2.
  induction S1 as [|a l1 S1 IH Ha]; intros l2 S2 Hs.
  - destruct l2 as [|b l2]; [reflexivity|].
    specialize (Hs (key b)). cbn [filter] in Hs. unfold at_key in Hs.
    rewrite Qeq_bool_refl in Hs. discriminate.
  - destruct l2 as [|b l2].
    { specialize (Hs (key a)). cbn [filter] in Hs. unfold at_key in Hs.
      rewrite Qeq_bool_refl in Hs. discriminate. }
    inversion S2 as [|? ? S2' Hb]; subst.
    destruct (Qeq_bool (key b) (key a)) eqn:Eba.
    + assert (a = b) as <-.
      { specialize (Hs (key a)). cbn [filter] in Hs. unfold at_key in Hs.
        rewrite Qeq_bool_refl, Eba in Hs. now injection Hs. }
      f_equal. apply IH; [exact S2'|].
      intros q. specialize (Hs q). cbn [filter] in Hs.
      destruct (at_key q a); [now injection Hs | exact Hs].
    + exfalso.
      assert (Hab : (key b <= key a)%Q).
      { pose proof (Hs (key a)) as H. cbn [filter] in H. unfold at_key in H.
        rewrite Qeq_bool_refl, Eba in H.
        assert (Hin : In a (filter (fun x => Qeq_bool (key x) (key a)) l2))
          by (rewrite <- H; now left).
        apply filter_In in Hin as [Hin _].
        rewrite Forall_forall in Hb. now apply Hb. }
      assert (Hba : (key a <= key b)%Q).
      { pose proof (Hs (key b)) as H. cbn [filter] in H. unfold at_key in H.
        rewrite Qeq_bool_refl, (Qeq_bool_comm (key a) (key b)), Eba in H.
        assert (Hin : In b (filter (fun x => Qeq_bool (key x) (key b)) l1))
          by (rewrite H; now left).
        apply filter_In in Hin as [Hin _].
        rewrite Forall_forall in Ha. now apply Ha. }
      apply Qeq_bool_neq in Eba. apply Eba. now apply Qle_antisym.
Qed.

End SortFacts.

Lemma by_position_negative (a b : IdeaLine.t) :
  negative by_position a b = true
  <-> (IdeaLine.position a < IdeaLine.position b)%Q.
Proof.
  unfold negative, by_position. rewrite Z.ltb_lt.
  rewrite (Qlt_minus_iff (IdeaLine.position a) (IdeaLine.position b)).
  set (x := IdeaLine.position a). set (y := IdeaLine.position b).
  unfold Qlt, Qminus, Qplus, Qopp. simpl. nia.
Qed.

(** ** The detail formatter *)

Definition ascending : list IdeaLine.t -> Prop :=
  ascending_by IdeaLine.position.

Definition same_order_per_position : list IdeaLine.t -> list IdeaLine.t -> Prop :=
  same_order_per_key IdeaLine.position.

Lemma content_fst (idea : IdeaDetail.t) :
  fst (content idea)
  = match IdeaDetail.lines idea with
    | [] => NO_CONTENT
    | _ :: _ =>
        CONTENT_HEADING
        ++ join LFLF (map render_line
                        (Array_sort by_position (IdeaDetail.lines idea)))
    end.
Proof. unfold content. now destruct (IdeaDetail.lines idea). Qed.

Lemma content_snd (idea : IdeaDetail.t) :
  snd (content idea)
  = IdeaDetail.with_lines (Array_sort by_position (IdeaDetail.lines idea)) idea.
Proof.
  unfold content. destruct idea as [? ? ? ? ? ? ? ? ? ls ?].
  now destruct ls.
Qed.

Lemma formatIdeaDetail_run_eq (idea : IdeaDetail.t) :
  formatIdeaDetail_run idea
  = (header idea ++ fst (content idea) ++ reactions idea,
     IdeaDetail.with_lines (Array_sort by_position (IdeaDetail.lines idea)) idea).
Proof.
  unfold formatIdeaDetail_run. pose proof (content_snd idea) as Hs.
  destruct (content idea) as [c idea']. cbn [fst snd] in *. now subst idea'.
Qed.

Lemma render_line_cases (line : IdeaLine.t) :
  exists prefix tag,
    render_line line = prefix ++ IdeaLine.content line ++ tag
    /\ (prefix = "### " /\ IdeaLine.line_type line = "heading"
        \/ prefix = "" /\ IdeaLine.line_type line <> "heading")
    /\ (tag = " [" ++ Number_toString (IdeaLine.comments_count line) ++ " comments]"
          /\ 0 < IdeaLine.comments_count line
        \/ tag = "" /\ IdeaLine.comments_count line <= 0).
Proof.
  unfold render_line.
  destruct (String.eqb_spec (IdeaLine.line_type line) "heading") as [Ht|Ht];
    destruct (Z.ltb_spec 0 (IdeaLine.comments_count line)) as [Hc|Hc];
    eexists; eexists; (split; [reflexivity|]); split; auto.
Qed.

(** C1: the content section of [formatIdeaDetail].  With at least one line
    it is the content heading followed by the paragraphs of the lines in
    ascending order of [position], lines of equal position in their input
    order, joined by a blank line; a paragraph is the line's content, with
    the heading marker in front exactly when [line_type] is ["heading"] and
    the comment-count annotation behind exactly when [comments_count > 0].
    With no line it is the fixed placeholder, which holds no content
    heading. *)
Theorem formatIdeaDetail_content_section :
  forall idea : IdeaDetail.t,
    formatIdeaDetail idea = header idea ++ fst (content idea) ++ reactions idea
    /\ (exists sorted : list IdeaLine.t,
          Permutation sorted (IdeaDetail.lines idea)
          /\ ascending sorted
          /\ same_order_per_position sorted (IdeaDetail.lines idea)
          /\ fst (content idea)
             = match IdeaDetail.lines idea with
               | [] => LFLF ++ "(No content yet)"
               | _ :: _ =>
                   LFLF ++ "## Content" ++ LFLF
                   ++ join LFLF (map render_line sorted)
               end)
    /\ (forall line : IdeaLine.t,
          exists prefix tag,
            render_line line = prefix ++ IdeaLine.content line ++ tag
            /\ (prefix = "### " /\ IdeaLine.line_type line = "heading"
                \/ prefix = "" /\ IdeaLine.line_type line <> "heading")
            /\ (tag = " [" ++ Number_toString (IdeaLine.comments_count line)
                       ++ " comments]"
                  /\ 0 < IdeaLine.comments_count line
                \/ tag = "" /\ IdeaLine.comments_count line <= 0))
    /\ ~ contains "## Content" (LFLF ++ "(No content yet)").
Proof.
  intros idea. split; [|split; [|split]].
  - unfold formatIdeaDetail. now rewrite formatIdeaDetail_run_eq.
  - exists (Array_sort by_position (IdeaDetail.lines idea)).
    split; [apply sort_perm|].
    split; [apply sort_sorted, by_position_negative|].
    split; [apply sort_stable, by_position_negative|].
    rewrite content_fst. destruct (IdeaDetail.lines idea); [reflexivity|].
    unfold CONTENT_HEADING. now rewrite !append_assoc.
  - apply render_line_cases.
  - intros H. apply contains_includes in H. vm_compute in H. discriminate.
Qed.

(** *** What formatting does to its argument *)

Definition sample_user : SimplifiedUser.t := SimplifiedUser.mk 7 "Aki" None.

Definition sample_line (p : Q) (ty c : string) (n : Z) : IdeaLine.t :=
  IdeaLine.mk 1 ty c p n "2024-01-01" "2024-01-02".

Definition sample_reaction (ty : string) (who : string) : Reaction.t :=
  Reaction.mk 1 ty "2024-01-03" (SimplifiedUser.mk 8 who None).

Definition sample_idea (ls : list IdeaLine.t) (rs : list Reaction.t)
  : IdeaDetail.t :=
  IdeaDetail.mk 5 "Title" "public" "seed" 2 false "2024-01-01" "2024-01-04"
                sample_user ls rs.

Lemma sort_lines_perm (ls : list IdeaLine.t) :
  Permutation (Array_sort by_position ls) ls.
Proof. apply sort_perm. Qed.

Lemma sort_lines_idempotent (ls : list IdeaLine.t) :
  Array_sort by_position (Array_sort by_position ls) = Array_sort by_position ls.
Proof.
  eapply sort_of_sorted; [apply by_position_negative|].
  apply sort_sorted, by_position_negative.
Qed.

(** C2, as stated, fails: formatting an idea whose two lines arrive at
    positions 2 and 1 leaves the idea's [lines] array in the other order. *)
Lemma formatIdeaDetail_reorders_lines_counterexample :
  exists idea : IdeaDetail.t,
    map IdeaLine.content (IdeaDetail.lines idea) = ["second"; "first"]
    /\ map IdeaLine.content (IdeaDetail.lines (snd (formatIdeaDetail_run idea)))
       = ["first"; "second"]
    /\ IdeaDetail.lines (snd (formatIdeaDetail_run idea)) <> IdeaDetail.lines idea.
Proof.
  exists (sample_idea [sample_line 2 "text" "second" 0;
                       sample_line 1 "text" "first" 0] []).
  repeat split. vm_compute. discriminate.
Qed.

(** C2, amended: [formatIdeaSummary] leaves its argument as it was.
    [formatIdeaDetail] leaves every field but [lines] as it was and leaves
    [lines] sorted: the same elements in ascending order of position, lines
    of equal position in their input order; the argument is unchanged
    exactly when its lines were already in ascending order.  Formatting the
    idea again gives the identical text and changes nothing more. *)
Theorem formatters_effect :
  forall (s : IdeaSummary.t) (d : IdeaDetail.t),
    let d' := snd (formatIdeaDetail_run d) in
    formatIdeaSummary_run s = (formatIdeaSummary s, s)
    /\ d' = IdeaDetail.with_lines (IdeaDetail.lines d') d
    /\ Permutation (IdeaDetail.lines d') (IdeaDetail.lines d)
    /\ ascending (IdeaDetail.lines d')
    /\ same_order_per_position (IdeaDetail.lines d') (IdeaDetail.lines d)
    /\ formatIdeaDetail_run d' = (formatIdeaDetail d, d')
    /\ (ascending (IdeaDetail.lines d) <-> d' = d).
Proof.
  intros s d d'.
  assert (Hd : d' = IdeaDetail.with_lines
                      (Array_sort by_position (IdeaDetail.lines d)) d).
  { subst d'. now rewrite formatIdeaDetail_run_eq. }
  assert (Hl : IdeaDetail.lines d' = Array_sort by_position (IdeaDetail.lines d)).
  { now rewrite Hd. }
  split; [reflexivity|].
  split; [now rewrite Hl|].
  split; [rewrite Hl; apply sort_perm|].
  split; [rewrite Hl; apply sort_sorted, by_position_negative|].
  split; [rewrite Hl; apply sort_stable, by_position_negative|].
  split.
  - unfold formatIdeaDetail. rewrite !formatIdeaDetail_run_eq. cbn [fst].
    rewrite !content_fst, Hl, sort_lines_idempotent.
    f_equal.
    + rewrite Hd. f_equal. f_equal.
      * destruct (IdeaDetail.lines d) as [|x l] eqn:E; [reflexivity|].
        destruct (Array_sort by_position (x :: l)) eqn:E'; [|reflexivity].
        pose proof (sort_lines_perm (x :: l)) as P. rewrite E' in P.
        now apply Permutation_nil in P.
    + rewrite Hd at 2. now rewrite Hd.
  - split; intros H.
    + rewrite Hd. rewrite (sort_of_sorted _ _ by_position_negative _ H).
      now destruct d.
    + rewrite <- H, Hl. apply sort_sorted, by_position_negative.
Qed.

(** *** The reactions section *)

Lemma reactions_eq (idea : IdeaDetail.t) :
  reactions idea
  = match IdeaDetail.reactions idea with
    | [] => ""
    | _ :: _ =>
        REACTIONS_HEADING
        ++ join LF (map render_reaction (IdeaDetail.reactions idea))
    end.
Proof. unfold reactions. now destruct (IdeaDetail.reactions idea). Qed.

(** C9: the reactions section of [formatIdeaDetail].  With at least one
    reaction it is the reactions heading followed by one bullet per
    reaction, giving the reaction type and the reactor's display name; with
    no reaction it is empty, so the text ends with the content section and
    no reactions heading is written. *)
Theorem formatIdeaDetail_reactions_section :
  forall idea : IdeaDetail.t,
    formatIdeaDetail idea = header idea ++ fst (content idea) ++ reactions idea
    /\ reactions idea
       = match IdeaDetail.reactions idea with
         | [] => ""
         | _ :: _ =>
             LFLF ++ "## Reactions" ++ LFLF
             ++ join LF (map render_reaction (IdeaDetail.reactions idea))
         end
    /\ (forall r : Reaction.t,
          render_reaction r
          = "- " ++ Reaction.reaction_type r ++ " by "
                 ++ SimplifiedUser.display_name (Reaction.user r))
    /\ match IdeaDetail.reactions idea with
       | [] => formatIdeaDetail idea = header idea ++ fst (content idea)
               /\ ~ contains "## Reactions" (reactions idea)
       | _ :: _ => contains "## Reactions" (formatIdeaDetail idea)
       end.
Proof.
  intros idea.
  assert (F : formatIdeaDetail idea
              = header idea ++ fst (content idea) ++ reactions idea).
  { unfold formatIdeaDetail. now rewrite formatIdeaDetail_run_eq. }
  split; [exact F|]. split; [|split; [reflexivity|]].
  - rewrite reactions_eq. destruct (IdeaDetail.reactions idea); [reflexivity|].
    unfold REACTIONS_HEADING. now rewrite !append_assoc.
  - rewrite F, reactions_eq. destruct (IdeaDetail.reactions idea) as [|r rs].
    + split; [now rewrite append_nil_r|].
      intros H. apply contains_includes in H. discriminate.
    + apply contains_app_r, contains_app_r, contains_app_l.
      exists LFLF, LFLF. reflexivity.
Qed.

(** C10: with at least one reaction, the bullets of the reactions section
    are the reactions' bullets one for one and in the order of the input
    array (no reaction is moved, merged or left out), and formatting leaves
    the [reactions] array as it was. *)
Theorem formatIdeaDetail_reactions_in_order :
  forall idea : IdeaDetail.t,
    IdeaDetail.reactions idea <> [] ->
    exists bullets : list string,
      reactions idea = LFLF ++ "## Reactions" ++ LFLF ++ join LF bullets
      /\ List.length bullets = List.length (IdeaDetail.reactions idea)
      /\ Forall2 (fun r b => b = render_reaction r)
                 (IdeaDetail.reactions idea) bullets
      /\ (forall (i : nat) (r : Reaction.t),
            nth_error (IdeaDetail.reactions idea) i = Some r ->
            nth_error bullets i = Some (render_reaction r))
      /\ IdeaDetail.reactions (snd (formatIdeaDetail_run idea))
         = IdeaDetail.reactions idea.
Proof.
  intros idea Hne. exists (map render_reaction (IdeaDetail.reactions idea)).
  split.
  - rewrite reactions_eq. destruct (IdeaDetail.reactions idea); [now destruct Hne|].
    unfold REACTIONS_HEADING. now rewrite !append_assoc.
  - split; [apply length_map|]. split; [|split].
    + clear Hne. induction (IdeaDetail.reactions idea); constructor; auto.
    + intros i r H. now rewrite nth_error_map, H.
    + now rewrite formatIdeaDetail_run_eq.
Qed.

(** Three reactions, two of them alike, and lines out of order: the lines
    are sorted, the reactions keep their places. *)
Lemma formatIdeaDetail_reactions_in_order_witness :
  let idea :=
    sample_idea [sample_line 2 "text" "second" 0; sample_line 1 "text" "first" 0]
                [sample_reaction "fire" "Zoe"; sample_reaction "clap" "Abe";
                 sample_reaction "fire" "Zoe"] in
  exists bullets : list string,
    reactions idea = LFLF ++ "## Reactions" ++ LFLF ++ join LF bullets
    /\ List.length bullets = List.length (IdeaDetail.reactions idea)
    /\ Forall2 (fun r b => b = render_reaction r)
               (IdeaDetail.reactions idea) bullets
    /\ (forall (i : nat) (r : Reaction.t),
          nth_error (IdeaDetail.reactions idea) i = Some r ->
          nth_error bullets i = Some (render_reaction r))
    /\ IdeaDetail.reactions (snd (formatIdeaDetail_run idea))
       = IdeaDetail.reactions idea.
Proof.
  apply (formatIdeaDetail_reactions_in_order
           (sample_idea [sample_line 2 "text" "second" 0;
                         sample_line 1 "text" "first" 0]
                        [sample_reaction "fire" "Zoe"; sample_reaction "clap" "Abe";
                         sample_reaction "fire" "Zoe"])).
  simpl. discriminate.
Defined.

Example formatIdeaDetail_sample :
  formatIdeaDetail
    (sample_idea [sample_line 3 "text" "c" 0; sample_line 1 "heading" "a" 2;
                  sample_line 2 "text" "b" 0]
                 [sample_reaction "fire" "Zoe"; sample_reaction "clap" "Abe"])
  = "# Title" ++ LFLF ++ "ID: 5" ++ LF ++ "Stage: seed | Visibility: public" ++ LF
    ++ "Author: Aki" ++ LF ++ "Reactions: 2" ++ LF
    ++ "Created: 2024-01-01 | Updated: 2024-01-04"
    ++ LFLF ++ "## Content" ++ LFLF
    ++ "### a [2 comments]" ++ LFLF ++ "b" ++ LFLF ++ "c"
    ++ LFLF ++ "## Reactions" ++ LFLF ++ "- fire by Zoe" ++ LF ++ "- clap by Abe".
Proof. reflexivity. Qed.

(** ** Typed views of JSON values *)

Lemma to_integer_inject_Z (z : Z) : to_integer (inject_Z z) = Some z.
Proof.
  unfold to_integer, Number_isInteger. cbn [inject_Z Qnum Qden].
  now rewrite Z.mod_1_r, Z.div_1_r.
Qed.

Lemma view_number_num (z : Z) : View.number (Some (num z)) = Some z.
Proof. apply to_integer_inject_Z. Qed.

Lemma traverse_map {A B : Type} (f : B -> option A) (g : A -> B) (l : list A) :
  (forall a, f (g a) = Some a) -> View.traverse f (map g l) = Some l.
Proof.
  intros H. induction l as [|a l IH]; [reflexivity|].
  cbn [map View.traverse]. now rewrite H, IH.
Qed.

Ltac view_step :=
  cbn -[to_integer inject_Z SimplifiedUser.of_value SimplifiedUser.to_value].

Ltac view_round_trip :=
  view_step; repeat (rewrite to_integer_inject_Z; view_step).

Lemma SimplifiedUser_round_trip (u : SimplifiedUser.t) :
  SimplifiedUser.of_value (SimplifiedUser.to_value u) = Some u.
Proof.
  destruct u as [i n [p|]]; unfold num;
    cbn -[to_integer inject_Z]; rewrite to_integer_inject_Z; reflexivity.
Qed.

Lemma IdeaSummary_round_trip (i : IdeaSummary.t) :
  IdeaSummary.of_value (IdeaSummary.to_value i) = Some i.
Proof.
  destruct i. unfold IdeaSummary.of_value, IdeaSummary.to_value, num.
  view_round_trip. rewrite SimplifiedUser_round_trip. reflexivity.
Qed.

Lemma IdeaLine_round_trip (l : IdeaLine.t) :
  IdeaLine.of_value (IdeaLine.to_value l) = Some l.
Proof. destruct l. unfold num. view_round_trip. reflexivity. Qed.

Lemma Reaction_round_trip (r : Reaction.t) :
  Reaction.of_value (Reaction.to_value r) = Some r.
Proof.
  destruct r. unfold Reaction.of_value, Reaction.to_value, num.
  view_round_trip. rewrite SimplifiedUser_round_trip. reflexivity.
Qed.

Lemma IdeaDetail_round_trip (d : IdeaDetail.t) :
  IdeaDetail.of_value (IdeaDetail.to_value d) = Some d.
Proof.
  destruct d. unfold IdeaDetail.of_value, IdeaDetail.to_value, num.
  view_round_trip. rewrite SimplifiedUser_round_trip. cbn [View.bind].
  unfold View.array.
  rewrite (traverse_map _ _ _ IdeaLine_round_trip). cbn [View.bind].
  rewrite (traverse_map _ _ _ Reaction_round_trip). reflexivity.
Qed.

Lemma PaginationMeta_round_trip (m : PaginationMeta.t) :
  PaginationMeta.of_value (PaginationMeta.to_value m) = Some m.
Proof. destruct m. unfold num. view_round_trip. reflexivity. Qed.

Lemma IdeasListResponse_round_trip (r : IdeasListResponse.t) :
  IdeasListResponse.of_value (IdeasListResponse.to_value r) = Some r.
Proof.
  destruct r. unfold IdeasListResponse.of_value, IdeasListResponse.to_value.
  cbn [View.object View.bind get String.eqb Ascii.eqb Bool.eqb View.array
       IdeasListResponse.ideas IdeasListResponse.meta].
  rewrite (traverse_map _ _ _ IdeaSummary_round_trip). cbn [View.bind].
  rewrite PaginationMeta_round_trip. reflexivity.
Qed.

(** An idea object has no property named [idea]. *)
Lemma idea_not_in_IdeaDetail (d : IdeaDetail.t) :
  in_op "idea" (IdeaDetail.to_value d) = Ok false.
Proof. reflexivity. Qed.

(** ** The API client *)

(** The request [apiRequest] hands to [fetch]. *)
Definition request_for (w : World) (path : string)
  (options : ApiRequestOptions.t) : Request.t :=
  Request.mk
    (API_BASE_URL w ++ path)
    (match ApiRequestOptions.method options with Some m => m | None => "GET" end)
    (match ApiRequestOptions.body options with
     | Some _ => [ ("X-API-Key", API_KEY w); ("Accept", "application/json");
                   ("Content-Type", "application/json") ]
     | None => [ ("X-API-Key", API_KEY w); ("Accept", "application/json") ]
     end)
    (ApiRequestOptions.body options).

(** The message of the error thrown on a non-success status. *)
Definition failure_message (r : Response.t) : string :=
  "API request failed: " ++ Number_toString (Response.status r) ++ " "
    ++ Response.statusText r ++ " - " ++ Response.text r.

(** The same world with a remote side that answers [r] to everything. *)
Definition answering (w : World) (r : Response.t) : World :=
  {| API_KEY := API_KEY w; API_BASE_URL := API_BASE_URL w;
     fetch := fun _ _ => Ok r |}.

Lemma apiRequest_run (path : string) (options : ApiRequestOptions.t)
  (w : World) (log : list Request.t) :
  apiRequest path options w log
  = (match fetch w log (request_for w path options) with
     | Ok response =>
         if Response.ok response then Response.json response
         else Throw (Error (failure_message response))
     | Throw e => Throw e
     end,
     (log ++ [request_for w path options])%list).
Proof.
  unfold apiRequest, request_for, bind, ask, do_fetch, throw, lift, failure_message.
  destruct options as [m [b|]]; cbn [ApiRequestOptions.method ApiRequestOptions.body app];
    (destruct (fetch w log _) as [response|e]; [|reflexivity]);
    destruct (Response.ok response); reflexivity.
Qed.

Lemma bind_throw {A B : Type} (m : M A) (k : A -> M B) (w : World)
  (log log' : list Request.t) (e : exn) :
  m w log = (Throw e, log') -> bind m k w log = (Throw e, log').
Proof. unfold bind. now intros ->. Qed.

Lemma bind_ok {A B : Type} (m : M A) (k : A -> M B) (w : World)
  (log log' : list Request.t) (a : A) :
  m w log = (Ok a, log') -> bind m k w log = k a w log'.
Proof. unfold bind. now intros ->. Qed.

Lemma failure_message_contains (r : Response.t) :
  contains (Number_toString (Response.status r)) (failure_message r)
  /\ contains (Response.statusText r) (failure_message r)
  /\ contains (Response.text r) (failure_message r).
Proof.
  unfold failure_message. repeat split.
  - apply contains_app_r, contains_app_l, contains_refl.
  - do 3 apply contains_app_r. apply contains_app_l, contains_refl.
  - do 5 apply contains_app_r. apply contains_refl.
Qed.

(** C6: what [apiRequest] does with the response [fetch] resolves to.  On a
    success status (200 to 299) it returns what [response.json()] gives.  On
    any other status it throws an error whose message holds the status
    code, the status text and the body text.  Whatever [apiRequest] throws,
    each of the three tool handlers throws in turn. *)
Theorem apiRequest_outcome :
  forall (w : World) (log : list Request.t) (path : string)
         (options : ApiRequestOptions.t) (response : Response.t),
    fetch w log (request_for w path options) = Ok response ->
    (if Response.ok response
     then fst (apiRequest path options w log) = Response.json response
     else exists message : string,
         fst (apiRequest path options w log) = Throw (Error message)
         /\ message
            = "API request failed: " ++ Number_toString (Response.status response)
              ++ " " ++ Response.statusText response
              ++ " - " ++ Response.text response
         /\ contains (Number_toString (Response.status response)) message
         /\ contains (Response.statusText response) message
         /\ contains (Response.text response) message)
    /\ (forall (page per_page : Z) (e : exn) (log' : list Request.t),
          apiRequest ("/api/v1/ideas?page=" ++ Number_toString page
                        ++ "&per_page=" ++ Number_toString per_page)
                     ApiRequestOptions.empty w log = (Throw e, log') ->
          list_ideas page per_page w log = (Throw e, log'))
    /\ (forall (idea_id : Z) (e : exn) (log' : list Request.t),
          apiRequest ("/api/v1/ideas/" ++ Number_toString idea_id)
                     ApiRequestOptions.empty w log = (Throw e, log') ->
          get_idea idea_id w log = (Throw e, log'))
    /\ (forall (title : string) (content : option string) (visibility : string)
               (e : exn) (log' : list Request.t),
          apiRequest "/api/v1/ideas"
                     (ApiRequestOptions.mk
                        (Some "POST")
                        (Some (create_idea_body title content visibility)))
                     w log = (Throw e, log') ->
          create_idea title content visibility w log = (Throw e, log')).
Proof.
  intros w log path options response Hfetch.
  split; [|split; [|split]].
  - rewrite apiRequest_run, Hfetch. cbn [fst].
    destruct (Response.ok response); [reflexivity|].
    exists (failure_message response).
    split; [reflexivity|]. split; [reflexivity|].
    apply failure_message_contains.
  - intros page per_page e log' H. unfold list_ideas. now apply bind_throw.
  - intros idea_id e log' H. unfold get_idea. now apply bind_throw.
  - intros title content visibility e log' H. unfold create_idea.
    now apply bind_throw.
Qed.

Definition sample_world (r : Response.t) : World :=
  {| API_KEY := "secret"; API_BASE_URL := "https://tanebi.app";
     fetch := fun _ _ => Ok r |}.

Definition unprocessable : Response.t :=
  Response.mk 422 "Unprocessable Entity" "title required"
              (Ok (JObject [("error", JString "title required")])).

(** A 422 answer to [create_idea]. *)
Lemma apiRequest_outcome_witness :
  fst (create_idea "Draft" None "public" (sample_world unprocessable) [])
  = Throw (Error "API request failed: 422 Unprocessable Entity - title required").
Proof.
  pose proof (apiRequest_outcome (sample_world unprocessable) [] "/api/v1/ideas"
                (ApiRequestOptions.mk (Some "POST")
                   (Some (create_idea_body "Draft" None "public")))
                unprocessable eq_refl) as (Hfail & _ & _ & Hcreate).
  cbn [Response.ok unprocessable Response.status Z.leb Z.compare Pos.compare
       Pos.compare_cont andb] in Hfail.
  destruct Hfail as (message & Hthrow & Hmessage & _).
  rewrite (Hcreate "Draft" None "public" (Error message)
             (snd (apiRequest "/api/v1/ideas"
                     (ApiRequestOptions.mk (Some "POST")
                        (Some (create_idea_body "Draft" None "public")))
                     (sample_world unprocessable) []))).
  - rewrite Hmessage. reflexivity.
  - rewrite <- Hthrow. now destruct (apiRequest _ _ _ _).
Defined.

(** ** The tool handlers *)

Lemma unwrap_direct (d : IdeaDetail.t) (w : World) (log : list Request.t) :
  unwrap (IdeaDetail.to_value d) w log = (Ok (IdeaDetail.to_value d), log).
Proof. reflexivity. Qed.

Lemma unwrap_wrapped (v : value) (w : World) (log : list Request.t) :
  unwrap (JObject [("idea", v)]) w log = (Ok v, log).
Proof. reflexivity. Qed.

Lemma cast_round_trip (d : IdeaDetail.t) (w : World) (log : list Request.t) :
  cast IdeaDetail.of_value (IdeaDetail.to_value d) w log = (Ok d, log).
Proof. unfold cast. now rewrite IdeaDetail_round_trip. Qed.

(** A handler's steps after [apiRequest] has returned [data]. *)
Lemma get_idea_after (idea_id : Z) (w : World) (log log' : list Request.t)
  (data : value) (d : IdeaDetail.t) :
  apiRequest ("/api/v1/ideas/" ++ Number_toString idea_id)
             ApiRequestOptions.empty w log = (Ok data, log') ->
  data = IdeaDetail.to_value d \/ data = JObject [("idea", IdeaDetail.to_value d)] ->
  get_idea idea_id w log = (Ok (formatIdeaDetail d), log').
Proof.
  intros Hreq Hdata. unfold get_idea. rewrite (bind_ok _ _ _ _ _ _ Hreq).
  destruct Hdata as [-> | ->].
  - rewrite (bind_ok _ _ _ _ _ _ (unwrap_direct d w log')).
    now rewrite (bind_ok _ _ _ _ _ _ (cast_round_trip d w log')).
  - rewrite (bind_ok _ _ _ _ _ _ (unwrap_wrapped _ w log')).
    now rewrite (bind_ok _ _ _ _ _ _ (cast_round_trip d w log')).
Qed.

Lemma create_idea_after (title : string) (content : option string)
  (visibility : string) (w : World) (log log' : list Request.t)
  (data : value) (d : IdeaDetail.t) :
  apiRequest "/api/v1/ideas"
             (ApiRequestOptions.mk
                (Some "POST") (Some (create_idea_body title content visibility)))
             w log = (Ok data, log') ->
  data = IdeaDetail.to_value d \/ data = JObject [("idea", IdeaDetail.to_value d)] ->
  create_idea title content visibility w log
  = (Ok ("Idea created successfully!" ++ LFLF ++ formatIdeaDetail d), log').
Proof.
  intros Hreq Hdata. unfold create_idea. rewrite (bind_ok _ _ _ _ _ _ Hreq).
  destruct Hdata as [-> | ->].
  - rewrite (bind_ok _ _ _ _ _ _ (unwrap_direct d w log')).
    now rewrite (bind_ok _ _ _ _ _ _ (cast_round_trip d w log')).
  - rewrite (bind_ok _ _ _ _ _ _ (unwrap_wrapped _ w log')).
    now rewrite (bind_ok _ _ _ _ _ _ (cast_round_trip d w log')).
Qed.

Lemma apiRequest_answering (path : string) (options : ApiRequestOptions.t)
  (w : World) (r : Response.t) (log : list Request.t) (data : value) :
  Response.ok r = true -> Response.json r = Ok data ->
  apiRequest path options (answering w r) log
  = (Ok data, (log ++ [request_for w path options])%list).
Proof.
  intros Hok Hjson. rewrite apiRequest_run. cbn [answering fetch].
  now rewrite Hok, Hjson.
Qed.

(** C3: [get_idea] and [create_idea] give the same result whether the
    response to their request is the idea object [d] itself or the object
    [{ idea: d }]: in both cases the text is that of [formatIdeaDetail d]
    (after the success line, for [create_idea]) and the same request was
    sent. *)
Theorem get_create_idea_either_shape :
  forall (w : World) (log : list Request.t) (d : IdeaDetail.t)
         (direct wrapped : Response.t),
    Response.ok direct = true ->
    Response.json direct = Ok (IdeaDetail.to_value d) ->
    Response.ok wrapped = true ->
    Response.json wrapped = Ok (JObject [("idea", IdeaDetail.to_value d)]) ->
    forall (idea_id : Z) (title : string) (content : option string)
           (visibility : string),
      get_idea idea_id (answering w direct) log
      = get_idea idea_id (answering w wrapped) log
      /\ fst (get_idea idea_id (answering w direct) log)
         = Ok (formatIdeaDetail d)
      /\ create_idea title content visibility (answering w direct) log
         = create_idea title content visibility (answering w wrapped) log
      /\ fst (create_idea title content visibility (answering w direct) log)
         = Ok ("Idea created successfully!" ++ LFLF ++ formatIdeaDetail d).
Proof.
  intros w log d direct wrapped Hok1 Hj1 Hok2 Hj2 idea_id title content visibility.
  pose proof (apiRequest_answering ("/api/v1/ideas/" ++ Number_toString idea_id)
                ApiRequestOptions.empty w direct log _ Hok1 Hj1) as G1.
  pose proof (apiRequest_answering ("/api/v1/ideas/" ++ Number_toString idea_id)
                ApiRequestOptions.empty w wrapped log _ Hok2 Hj2) as G2.
  pose proof (apiRequest_answering "/api/v1/ideas"
                (ApiRequestOptions.mk (Some "POST")
                   (Some (create_idea_body title content visibility)))
                w direct log _ Hok1 Hj1) as C1.
  pose proof (apiRequest_answering "/api/v1/ideas"
                (ApiRequestOptions.mk (Some "POST")
                   (Some (create_idea_body title content visibility)))
                w wrapped log _ Hok2 Hj2) as C2.
  rewrite (get_idea_after _ _ _ _ _ d G1 (or_introl eq_refl)).
  rewrite (get_idea_after _ _ _ _ _ d G2 (or_intror eq_refl)).
  rewrite (create_idea_after _ _ _ _ _ _ _ d C1 (or_introl eq_refl)).
  rewrite (create_idea_after _ _ _ _ _ _ _ d C2 (or_intror eq_refl)).
  repeat split.
Qed.

Definition sample_detail : IdeaDetail.t :=
  sample_idea [sample_line 2 "text" "second" 0; sample_line 1 "heading" "first" 3]
              [sample_reaction "fire" "Zoe"].

Lemma get_create_idea_either_shape_witness :
  let direct :=
    Response.mk 200 "OK" "direct" (Ok (IdeaDetail.to_value sample_detail)) in
  let wrapped :=
    Response.mk 201 "Created" "wrapped"
                (Ok (JObject [("idea", IdeaDetail.to_value sample_detail)])) in
  let w := sample_world unprocessable in
  get_idea 5 (answering w direct) [] = get_idea 5 (answering w wrapped) []
  /\ fst (get_idea 5 (answering w direct) []) = Ok (formatIdeaDetail sample_detail)
  /\ create_idea "Title" (Some "first") "public" (answering w direct) []
     = create_idea "Title" (Some "first") "public" (answering w wrapped) []
  /\ fst (create_idea "Title" (Some "first") "public" (answering w direct) [])
     = Ok ("Idea created successfully!" ++ LFLF ++ formatIdeaDetail sample_detail).
Proof.
  exact (get_create_idea_either_shape
           (sample_world unprocessable) [] sample_detail
           (Response.mk 200 "OK" "direct" (Ok (IdeaDetail.to_value sample_detail)))
           (Response.mk 201 "Created" "wrapped"
              (Ok (JObject [("idea", IdeaDetail.to_value sample_detail)])))
           eq_refl eq_refl eq_refl eq_refl 5 "Title" (Some "first") "public").
Defined.

Lemma unwrap_log (data : value) (w : World) (log : list Request.t) :
  snd (unwrap data w log) = log.
Proof.
  unfold unwrap, bind, lift.
  destruct (in_op "idea" data) as [[|]|e]; cbn [snd]; try reflexivity.
  now destruct (member "idea" data).
Qed.

Lemma cast_log {T : Type} (of_value : value -> option T) (v : value)
  (w : World) (log : list Request.t) :
  snd (cast of_value v w log) = log.
Proof. unfold cast. now destruct (of_value v). Qed.

Lemma bind_log {A B : Type} (m : M A) (k : A -> M B) (w : World)
  (log : list Request.t) :
  snd (m w log) = log -> (forall a l, snd (k a w l) = l) ->
  snd (bind m k w log) = log.
Proof.
  unfold bind. intros Hm Hk. destruct (m w log) as [[a|e] l']; cbn [snd] in Hm;
    subst; [apply Hk | reflexivity].
Qed.

(** A handler that only computes after its [apiRequest] has sent exactly
    that one request. *)
Lemma apiRequest_then_log {B : Type} (path : string)
  (options : ApiRequestOptions.t) (k : value -> M B) (w : World)
  (log : list Request.t) :
  (forall a l, snd (k a w l) = l) ->
  snd (bind (apiRequest path options) k w log)
  = (log ++ [request_for w path options])%list.
Proof.
  intros Hk. unfold bind. rewrite apiRequest_run.
  match goal with |- snd (match ?r with Ok _ => _ | Throw _ => _ end) = _ =>
    destruct r as [a|e] end; [apply Hk | reflexivity].
Qed.

Lemma unwrap_cast_log {B : Type} (f : IdeaDetail.t -> B) (data : value)
  (w : World) (log : list Request.t) :
  snd (bind (unwrap data)
         (fun idea => bind (cast IdeaDetail.of_value idea)
                        (fun idea => ret (f idea))) w log) = log.
Proof.
  apply bind_log; [apply unwrap_log|]. intros idea l.
  apply bind_log; [apply cast_log | reflexivity].
Qed.

Lemma create_idea_log (title : string) (content : option string)
  (visibility : string) (w : World) (log : list Request.t) :
  snd (create_idea title content visibility w log)
  = (log ++ [request_for w "/api/v1/ideas"
               (ApiRequestOptions.mk
                  (Some "POST")
                  (Some (create_idea_body title content visibility)))])%list.
Proof.
  unfold create_idea. apply apiRequest_then_log. intros a l.
  apply unwrap_cast_log.
Qed.

Lemma CreateIdea_parse_inv (arguments : Obj) (a : CreateIdea.args) :
  CreateIdea.parse arguments = Some a ->
  get "title" arguments = Some (JString (CreateIdea.title_arg a))
  /\ CreateIdea.title_arg a <> ""
  /\ (get "content" arguments = None /\ CreateIdea.content_arg a = None
      \/ exists c, get "content" arguments = Some (JString c)
                   /\ CreateIdea.content_arg a = Some c)
  /\ (CreateIdea.visibility_arg a = "public"
      \/ CreateIdea.visibility_arg a = "private").
Proof.
  unfold CreateIdea.parse, View.bind, Zod.parse_string, Zod.parse_enum.
  cbn [CreateIdea.title CreateIdea.content CreateIdea.visibility Zod.min
       Zod.optional Zod.string Zod.enum Zod.enum_with_default Zod.min_length
       Zod.is_optional Zod.options Zod.enum_default option_map].
  destruct (get "title" arguments) as [[| | |t| |]|]; try discriminate.
  destruct t as [|x t]; [discriminate|]. cbn [String.length Nat.leb].
  intros H.
  assert (V : forall v, existsb (String.eqb v) ["public"; "private"] = true ->
                        v = "public" \/ v = "private").
  { intros v Hv. cbn [existsb] in Hv.
    destruct (String.eqb_spec v "public"); [now left|].
    destruct (String.eqb_spec v "private"); [now right | discriminate]. }
  destruct (get "content" arguments) as [[| | |c| |]|]; try discriminate;
    destruct (get "visibility" arguments) as [[| | |v| |]|]; try discriminate;
    match type of H with
    | context [existsb ?f ?l] => destruct (existsb f l) eqn:E; [|discriminate]
    end;
    injection H as <-; cbn; apply V in E;
    (split; [reflexivity|]); (split; [discriminate|]); split; eauto.
Qed.

(** C5: the body of the POST request of [create_idea] called with
    arguments that pass its schema.  It holds [title] and [visibility]; it
    holds [content], with the value supplied, exactly when a non-empty
    content string was supplied; and it holds nothing else. *)
Theorem create_idea_request_body :
  forall (w : World) (log : list Request.t) (arguments : Obj)
         (a : CreateIdea.args),
    CreateIdea.parse arguments = Some a ->
    let body := create_idea_body (CreateIdea.title_arg a)
                  (CreateIdea.content_arg a) (CreateIdea.visibility_arg a) in
    snd (call_tool "create_idea" arguments w log)
    = (log ++ [Request.mk (API_BASE_URL w ++ "/api/v1/ideas") "POST"
                 [ ("X-API-Key", API_KEY w); ("Accept", "application/json");
                   ("Content-Type", "application/json") ]
                 (Some body)])%list
    /\ get "title" body = get "title" arguments
    /\ get "title" body = Some (JString (CreateIdea.title_arg a))
    /\ get "visibility" body = Some (JString (CreateIdea.visibility_arg a))
    /\ (has_key "content" body = true
        <-> exists c, get "content" arguments = Some (JString c) /\ c <> "")
    /\ (forall c, get "content" arguments = Some (JString c) -> c <> "" ->
                  get "content" body = Some (JString c))
    /\ keys body = (if has_key "content" body
                    then ["title"; "visibility"; "content"]
                    else ["title"; "visibility"]).
Proof.
  intros w log arguments a Hparse body.
  destruct (CreateIdea_parse_inv _ _ Hparse) as (Ht & _ & Hc & _).
  split.
  { unfold call_tool. cbn [String.eqb Ascii.eqb Bool.eqb]. rewrite Hparse.
    now rewrite create_idea_log. }
  subst body. unfold create_idea_body. rewrite Ht.
  destruct Hc as [[Hc Ha] | (c & Hc & Ha)]; rewrite Ha, Hc.
  - repeat (split; [reflexivity|]). split.
    + split; [discriminate | now intros (c & ? & _)].
    + split; [discriminate | reflexivity].
  - destruct c as [|x c]; cbn [truthy]; repeat (split; [reflexivity|]); split.
    + split; [discriminate|]. intros (c & E & Hne). now injection E as <-.
    + split; [now intros c E Hne; injection E as <- | reflexivity].
    + split; [|reflexivity]. intros _. eexists. split; [reflexivity | discriminate].
    + split; [now intros c' E _; injection E as <- | reflexivity].
Qed.

Lemma create_idea_request_body_witness :
  let arguments := [("title", JString "Draft"); ("content", JString "")] in
  exists body : Obj,
    snd (call_tool "create_idea" arguments (sample_world unprocessable) [])
    = [Request.mk "https://tanebi.app/api/v1/ideas" "POST"
         [ ("X-API-Key", "secret"); ("Accept", "application/json");
           ("Content-Type", "application/json") ]
         (Some body)]
    /\ keys body = ["title"; "visibility"].
Proof.
  pose proof (create_idea_request_body (sample_world unprocessable) []
                [("title", JString "Draft"); ("content", JString "")]
                {| CreateIdea.title_arg := "Draft";
                   CreateIdea.content_arg := Some "";
                   CreateIdea.visibility_arg := "public" |}
                eq_refl) as (Hsent & _ & _ & _ & _ & _ & Hkeys).
  eexists. split; [exact Hsent | exact Hkeys].
Defined.

(** ** The schema of [list_ideas] *)

Lemma page_checks : Zod.checks ListIdeas.page = [Zod.Int; Zod.Positive].
Proof. reflexivity. Qed.

Lemma per_page_checks :
  Zod.checks ListIdeas.per_page = [Zod.Int; Zod.Positive; Zod.Max 100].
Proof. reflexivity. Qed.

Lemma parse_number_given (s : Zod.ZodNumber) (q : Q) :
  Zod.parse_number s (Some (JNumber q))
  = if forallb (Zod.passes q) (Zod.checks s) then Some q else None.
Proof. reflexivity. Qed.

Lemma page_refused (q : Q) :
  (q <= 0)%Q \/ Number_isInteger q = false ->
  Zod.parse_number ListIdeas.page (Some (JNumber q)) = None.
Proof.
  intros H. rewrite parse_number_given, page_checks. cbn [forallb Zod.passes].
  destruct H as [H | H].
  - apply Qle_bool_iff in H. rewrite H. now rewrite andb_false_r.
  - now rewrite H.
Qed.

Lemma per_page_refused (q : Q) :
  (q <= 0)%Q \/ (100 < q)%Q ->
  Zod.parse_number ListIdeas.per_page (Some (JNumber q)) = None.
Proof.
  intros H. rewrite parse_number_given, per_page_checks. cbn [forallb Zod.passes].
  destruct H as [H | H].
  - apply Qle_bool_iff in H. rewrite H. now rewrite andb_false_r.
  - destruct (Qle_bool q 100) eqn:E.
    + apply Qle_bool_iff in E. exfalso. exact (Qlt_not_le _ _ H E).
    + now rewrite !andb_false_r.
Qed.

Lemma positive_inject_Z (p : Z) : 1 <= p -> Qle_bool (inject_Z p) 0 = false.
Proof.
  intros H. destruct (Qle_bool (inject_Z p) 0) eqn:E; [|reflexivity].
  apply Qle_bool_iff in E. unfold Qle in E. cbn in E. lia.
Qed.

Lemma integer_inject_Z (p : Z) : Number_isInteger (inject_Z p) = true.
Proof. unfold Number_isInteger. cbn. now rewrite Z.mod_1_r. Qed.

Lemma page_accepted (p : Z) :
  1 <= p -> Zod.parse_number ListIdeas.page (Some (num p)) = Some (inject_Z p).
Proof.
  intros H. unfold num. rewrite parse_number_given, page_checks.
  cbn [forallb Zod.passes]. now rewrite integer_inject_Z, positive_inject_Z.
Qed.

Lemma per_page_accepted (n : Z) :
  1 <= n <= 100 ->
  Zod.parse_number ListIdeas.per_page (Some (num n)) = Some (inject_Z n).
Proof.
  intros H. unfold num. rewrite parse_number_given, per_page_checks.
  cbn [forallb Zod.passes].
  rewrite integer_inject_Z, positive_inject_Z by lia.
  assert (E : Qle_bool (inject_Z n) 100 = true).
  { apply Qle_bool_iff. unfold Qle. cbn. lia. }
  now rewrite E.
Qed.

Lemma call_list_ideas (arguments : Obj) :
  call_tool "list_ideas" arguments
  = match ListIdeas.parse arguments with
    | Some a => list_ideas (ListIdeas.page_arg a) (ListIdeas.per_page_arg a)
    | None => throw INVALID_PARAMS
    end.
Proof. reflexivity. Qed.

(** C7: the schema of [list_ideas].  A call whose [page] is a number that
    is zero, negative or not an integer, or whose [per_page] is a number
    that is zero, negative or above 100, is refused with no request sent.
    A missing [page] is read as 1 and a missing [per_page] as 20. *)
Theorem list_ideas_schema :
  forall (w : World) (log : list Request.t) (arguments : Obj),
    ((exists q : Q, get "page" arguments = Some (JNumber q)
                    /\ ((q <= 0)%Q \/ Number_isInteger q = false))
     \/ (exists q : Q, get "per_page" arguments = Some (JNumber q)
                       /\ ((q <= 0)%Q \/ (100 < q)%Q)) ->
     call_tool "list_ideas" arguments w log = (Throw INVALID_PARAMS, log))
    /\ Zod.parse_number ListIdeas.page None = Some 1%Q
    /\ Zod.parse_number ListIdeas.per_page None = Some 20%Q
    /\ call_tool "list_ideas" [] w log = list_ideas 1 20 w log
    /\ (forall n : Z, 1 <= n <= 100 ->
          call_tool "list_ideas" [("per_page", num n)] w log
          = list_ideas 1 n w log)
    /\ (forall p : Z, 1 <= p ->
          call_tool "list_ideas" [("page", num p)] w log
          = list_ideas p 20 w log).
Proof.
  intros w log arguments. split; [|repeat split].
  - intros H. rewrite call_list_ideas.
    assert (E : ListIdeas.parse arguments = None); [|now rewrite E].
    unfold ListIdeas.parse.
    destruct H as [(q & Hq & Hbad) | (q & Hq & Hbad)]; rewrite Hq.
    + now rewrite page_refused.
    + rewrite per_page_refused by exact Hbad.
      now destruct (Zod.parse_number ListIdeas.page _).
  - intros n Hn. rewrite call_list_ideas. unfold ListIdeas.parse.
    cbn [get String.eqb Ascii.eqb Bool.eqb].
    rewrite per_page_accepted by exact Hn.
    change (Zod.parse_number ListIdeas.page None) with (Some (inject_Z 1)).
    cbn [View.bind]. now rewrite !to_integer_inject_Z.
  - intros p Hp. rewrite call_list_ideas. unfold ListIdeas.parse.
    cbn [get String.eqb Ascii.eqb Bool.eqb].
    rewrite page_accepted by exact Hp.
    change (Zod.parse_number ListIdeas.per_page None) with (Some (inject_Z 20)).
    cbn [View.bind]. now rewrite !to_integer_inject_Z.
Qed.

(** Four refused calls: [per_page] 101, [per_page] 0, [page] 0 and [page]
    3/2, each leaving the request log empty. *)
Lemma list_ideas_schema_witness :
  let w := sample_world unprocessable in
  call_tool "list_ideas" [("per_page", JNumber 101)] w []
    = (Throw INVALID_PARAMS, [])
  /\ call_tool "list_ideas" [("page", JNumber 2); ("per_page", JNumber 0)] w []
    = (Throw INVALID_PARAMS, [])
  /\ call_tool "list_ideas" [("page", JNumber 0)] w []
    = (Throw INVALID_PARAMS, [])
  /\ call_tool "list_ideas" [("page", JNumber (3 # 2))] w []
    = (Throw INVALID_PARAMS, []).
Proof.
  intros w. split; [|split; [|split]].
  - apply (proj1 (list_ideas_schema (sample_world unprocessable) []
                    [("per_page", JNumber 101)])).
    right. exists 101%Q. split; [reflexivity|]. right. reflexivity.
  - apply (proj1 (list_ideas_schema (sample_world unprocessable) []
                    [("page", JNumber 2); ("per_page", JNumber 0)])).
    right. exists 0%Q. split; [reflexivity|]. left. discriminate.
  - apply (proj1 (list_ideas_schema (sample_world unprocessable) []
                    [("page", JNumber 0)])).
    left. exists 0%Q. split; [reflexivity|]. left. discriminate.
  - apply (proj1 (list_ideas_schema (sample_world unprocessable) []
                    [("page", JNumber (3 # 2))])).
    left. exists (3 # 2)%Q. split; [reflexivity|]. right. reflexivity.
Defined.

(** ** The request of [list_ideas] *)

(** Reading a request target: the path before the first [?], and the
    parameters between the [&] after it, each split at its first [=]. *)

Fixpoint occurs (c : ascii) (s : string) : bool :=
  match s with
  | EmptyString => false
  | String x rest => Ascii.eqb x c || occurs c rest
  end.

Fixpoint split_once (c : ascii) (s : string) : option (string * string) :=
  match s with
  | EmptyString => None
  | String x rest =>
      if Ascii.eqb x c then Some ("", rest)
      else match split_once c rest with
           | Some (a, b) => Some (String x a, b)
           | None => None
           end
  end.

Fixpoint split (c : ascii) (s : string) : list string :=
  match s with
  | EmptyString => [""]
  | String x rest =>
      if Ascii.eqb x c then "" :: split c rest
      else match split c rest with
           | h :: t => String x h :: t
           | [] => [String x ""]
           end
  end.

Definition parameter (kv : string) : string * string :=
  match split_once "=" kv with
  | Some p => p
  | None => (kv, "")
  end.

Definition target (s : string) : option (string * list (string * string)) :=
  match split_once "?" s with
  | Some (path, query) => Some (path, map parameter (split "&" query))
  | None => None
  end.

(** The characters a printed number is made of. *)
Definition number_char (c : ascii) : bool :=
  existsb (Ascii.eqb c)
    ["0"; "1"; "2"; "3"; "4"; "5"; "6"; "7"; "8"; "9"; "-"; "."; "e"; "+"]%char.

Fixpoint all_chars (p : ascii -> bool) (s : string) : bool :=
  match s with
  | EmptyString => true
  | String x rest => p x && all_chars p rest
  end.

Lemma uint_chars (d : Decimal.uint) :
  all_chars number_char (NilEmpty.string_of_uint d) = true.
Proof. induction d; cbn; auto. Qed.

Lemma decimal_chars (n : Z) : all_chars number_char (decimal n) = true.
Proof.
  unfold decimal, NilZero.string_of_int, NilZero.string_of_uint.
  destruct (Z.to_int n) as [d|d]; destruct d; cbn; auto using uint_chars.
Qed.

Lemma all_chars_app (p : ascii -> bool) (a b : string) :
  all_chars p (a ++ b) = all_chars p a && all_chars p b.
Proof.
  induction a as [|x a IH]; [reflexivity|]. cbn. now rewrite IH, andb_assoc.
Qed.

Lemma strip_zeros_chars (p : ascii -> bool) (s : string) :
  all_chars p s = true -> all_chars p (strip_zeros s) = true.
Proof.
  induction s as [|x s IH]; [reflexivity|]. cbn [all_chars strip_zeros].
  intros H. apply andb_true_iff in H as [Hx Hs]. specialize (IH Hs).
  destruct (strip_zeros s) as [|y r].
  - destruct (Ascii.eqb x "0"); [reflexivity|]. cbn. now rewrite Hx.
  - cbn [all_chars] in *. now rewrite Hx, IH.
Qed.

Lemma exponential_chars (c : Z) : all_chars number_char (exponential c) = true.
Proof.
  unfold exponential.
  pose proof (strip_zeros_chars number_char _ (decimal_chars c)) as H.
  destruct (strip_zeros (decimal c)) as [|d [|y rest]]; [reflexivity| |];
    cbn [all_chars] in H; apply andb_true_iff in H as [Hd Hr].
  - cbn [all_chars]. rewrite Hd, all_chars_app, decimal_chars. reflexivity.
  - cbn [all_chars]. rewrite Hd, !all_chars_app, decimal_chars.
    cbn [all_chars] in Hr |- *. rewrite Hr. reflexivity.
Qed.

Lemma print_double_chars (x : Z) : all_chars number_char (print_double x) = true.
Proof.
  unfold print_double.
  destruct (shortest x <? 10 ^ 21); [apply decimal_chars | apply exponential_chars].
Qed.

Lemma Number_toString_chars (n : Z) :
  all_chars number_char (Number_toString n) = true.
Proof.
  unfold Number_toString.
  destruct (Z.abs n <=? MAX_SAFE_INTEGER); [apply decimal_chars|].
  destruct (n <? 0); [|apply print_double_chars].
  rewrite all_chars_app, print_double_chars. reflexivity.
Qed.

Lemma Number_toString_safe (n : Z) :
  Z.abs n <= MAX_SAFE_INTEGER -> Number_toString n = decimal n.
Proof.
  intros H. unfold Number_toString.
  now destruct (Z.leb_spec (Z.abs n) MAX_SAFE_INTEGER); [|lia].
Qed.

Lemma all_chars_occurs (p : ascii -> bool) (c : ascii) (s : string) :
  all_chars p s = true -> p c = false -> occurs c s = false.
Proof.
  intros Hs Hc. induction s as [|x s IH]; [reflexivity|].
  cbn in *. apply andb_true_iff in Hs as [Hx Hs].
  rewrite (IH Hs), orb_false_r.
  destruct (Ascii.eqb_spec x c); [congruence | reflexivity].
Qed.

Lemma occurs_app (c : ascii) (a b : string) :
  occurs c (a ++ b) = occurs c a || occurs c b.
Proof.
  induction a as [|x a IH]; [reflexivity|]. cbn. now rewrite IH, orb_assoc.
Qed.

Lemma split_once_app (c : ascii) (a b : string) :
  occurs c a = false -> split_once c (a ++ String c b) = Some (a, b).
Proof.
  induction a as [|x a IH]; cbn.
  - intros _. now rewrite Ascii.eqb_refl.
  - intros H. apply orb_false_iff in H as [Hx Ha]. now rewrite Hx, (IH Ha).
Qed.

Lemma split_no_separator (c : ascii) (s : string) :
  occurs c s = false -> split c s = [s].
Proof.
  induction s as [|x s IH]; [reflexivity|]. cbn.
  intros H. apply orb_false_iff in H as [Hx Hs]. now rewrite Hx, (IH Hs).
Qed.

Lemma split_app (c : ascii) (a b : string) :
  occurs c a = false -> split c (a ++ String c b) = a :: split c b.
Proof.
  induction a as [|x a IH]; cbn.
  - intros _. now rewrite Ascii.eqb_refl.
  - intros H. apply orb_false_iff in H as [Hx Ha]. now rewrite Hx, (IH Ha).
Qed.

Lemma target_two_parameters (path k1 v1 k2 v2 : string) :
  occurs "?" path = false ->
  occurs "&" k1 = false -> occurs "=" k1 = false -> occurs "&" v1 = false ->
  occurs "&" k2 = false -> occurs "=" k2 = false -> occurs "&" v2 = false ->
  target (path ++ "?" ++ k1 ++ "=" ++ v1 ++ "&" ++ k2 ++ "=" ++ v2)
  = Some (path, [(k1, v1); (k2, v2)]).
Proof.
  intros Hp Hk1 Hk1' Hv1 Hk2 Hk2' Hv2. unfold target.
  change (path ++ "?" ++ k1 ++ "=" ++ v1 ++ "&" ++ k2 ++ "=" ++ v2)
    with (path ++ String "?" (k1 ++ "=" ++ v1 ++ "&" ++ k2 ++ "=" ++ v2)).
  rewrite (split_once_app _ _ _ Hp).
  replace (k1 ++ "=" ++ v1 ++ "&" ++ k2 ++ "=" ++ v2)
    with ((k1 ++ "=" ++ v1) ++ String "&" (k2 ++ "=" ++ v2))
    by (now rewrite !append_assoc).
  rewrite split_app by (now rewrite !occurs_app, Hk1, Hv1).
  rewrite split_no_separator by (now rewrite !occurs_app, Hk2, Hv2).
  cbn [map]. unfold parameter.
  change (k1 ++ "=" ++ v1) with (k1 ++ String "=" v1).
  change (k2 ++ "=" ++ v2) with (k2 ++ String "=" v2).
  now rewrite !split_once_app.
Qed.

Lemma list_ideas_target (page per_page : Z) :
  target ("/api/v1/ideas?page=" ++ Number_toString page
            ++ "&per_page=" ++ Number_toString per_page)
  = Some ("/api/v1/ideas",
          [("page", Number_toString page); ("per_page", Number_toString per_page)]).
Proof.
  rewrite <- (target_two_parameters "/api/v1/ideas" "page"
                (Number_toString page) "per_page" (Number_toString per_page));
    try reflexivity;
    apply (all_chars_occurs number_char); auto using Number_toString_chars.
Qed.

(** The text [list_ideas] returns for a listing. *)
Definition listing (r : IdeasListResponse.t) : string :=
  join LFLF (map formatIdeaSummary (IdeasListResponse.ideas r))
  ++ LF ++ LF
  ++ "Page " ++ Number_toString (PaginationMeta.current_page (IdeasListResponse.meta r))
  ++ " of " ++ Number_toString (PaginationMeta.total_pages (IdeasListResponse.meta r))
  ++ " (" ++ Number_toString (PaginationMeta.total_count (IdeasListResponse.meta r))
  ++ " total ideas)".

Lemma list_ideas_after (page per_page : Z) (w : World)
  (log log' : list Request.t) (r : IdeasListResponse.t) :
  apiRequest ("/api/v1/ideas?page=" ++ Number_toString page
                ++ "&per_page=" ++ Number_toString per_page)
             ApiRequestOptions.empty w log
  = (Ok (IdeasListResponse.to_value r), log') ->
  list_ideas page per_page w log = (Ok (listing r), log').
Proof.
  intros H. unfold list_ideas. rewrite (bind_ok _ _ _ _ _ _ H).
  unfold bind, cast. rewrite IdeasListResponse_round_trip. reflexivity.
Qed.

Lemma listing_contents (r : IdeasListResponse.t) :
  (forall idea : IdeaSummary.t,
     In idea (IdeasListResponse.ideas r) ->
     contains (formatIdeaSummary idea) (listing r))
  /\ ends_with
       ("Page "
        ++ Number_toString (PaginationMeta.current_page (IdeasListResponse.meta r))
        ++ " of "
        ++ Number_toString (PaginationMeta.total_pages (IdeasListResponse.meta r))
        ++ " ("
        ++ Number_toString (PaginationMeta.total_count (IdeasListResponse.meta r))
        ++ " total ideas)")
       (listing r).
Proof.
  unfold listing. split.
  - intros idea Hin. apply contains_app_l, contains_join, in_map, Hin.
  - do 3 apply ends_with_app. apply ends_with_refl.
Qed.

Lemma list_ideas_log (page per_page : Z) (w : World) (log : list Request.t) :
  snd (list_ideas page per_page w log)
  = (log ++ [request_for w ("/api/v1/ideas?page=" ++ Number_toString page
                               ++ "&per_page=" ++ Number_toString per_page)
               ApiRequestOptions.empty])%list.
Proof.
  unfold list_ideas. apply apiRequest_then_log. intros a l.
  apply bind_log; [apply cast_log | reflexivity].
Qed.

Lemma list_ideas_accepted (page per_page : Z) :
  1 <= page -> 1 <= per_page <= 100 ->
  call_tool "list_ideas" [("page", num page); ("per_page", num per_page)]
  = list_ideas page per_page.
Proof.
  intros Hpage Hper. rewrite call_list_ideas. unfold ListIdeas.parse.
  cbn [get String.eqb Ascii.eqb Bool.eqb].
  rewrite (page_accepted _ Hpage), (per_page_accepted _ Hper).
  cbn [View.bind]. rewrite !to_integer_inject_Z. reflexivity.
Qed.

(** C4, as stated, fails: a page of 10^21 passes the schema, and the query
    of the request then reads [page=1e+21], which is not the numeral of the
    page; a page of 2^60 passes too, and the query reads
    [page=1152921504606847000], the numeral of another number. *)
Lemma list_ideas_large_page_counterexample :
  exists page page' : Z,
    page = 10 ^ 21 /\ page' = 2 ^ 60
    /\ (forall (w : World) (log : list Request.t),
          snd (call_tool "list_ideas" [("page", num page)] w log)
          = (log ++ [Request.mk
                       (API_BASE_URL w ++ "/api/v1/ideas?page=1e+21&per_page=20")
                       "GET"
                       [ ("X-API-Key", API_KEY w); ("Accept", "application/json") ]
                       None])%list)
    /\ target "/api/v1/ideas?page=1e+21&per_page=20"
       = Some ("/api/v1/ideas", [("page", "1e+21"); ("per_page", "20")])
    /\ decimal page = "1000000000000000000000"
    /\ (forall (w : World) (log : list Request.t),
          snd (call_tool "list_ideas" [("page", num page')] w log)
          = (log ++ [Request.mk
                       (API_BASE_URL w
                        ++ "/api/v1/ideas?page=1152921504606847000&per_page=20")
                       "GET"
                       [ ("X-API-Key", API_KEY w); ("Accept", "application/json") ]
                       None])%list)
    /\ decimal page' = "1152921504606846976".
Proof.
  exists (10 ^ 21), (2 ^ 60).
  split; [reflexivity|]. split; [reflexivity|].
  split; [|split; [reflexivity|split; [reflexivity|split; [|reflexivity]]]].
  - intros w log. rewrite call_list_ideas.
    change (ListIdeas.parse [("page", num (10 ^ 21))])
      with (Some {| ListIdeas.page_arg := 10 ^ 21; ListIdeas.per_page_arg := 20 |}).
    cbv iota beta. cbn [ListIdeas.page_arg ListIdeas.per_page_arg].
    rewrite list_ideas_log. reflexivity.
  - intros w log. rewrite call_list_ideas.
    change (ListIdeas.parse [("page", num (2 ^ 60))])
      with (Some {| ListIdeas.page_arg := 2 ^ 60; ListIdeas.per_page_arg := 20 |}).
    cbv iota beta. cbn [ListIdeas.page_arg ListIdeas.per_page_arg].
    rewrite list_ideas_log. reflexivity.
Qed.

(** C4, amended: [list_ideas] called with a page of at least 1 and a page
    size from 1 to 100.  The call passes the schema and sends, whatever the
    answer, one GET with no body to [/api/v1/ideas] whose query holds
    exactly the parameters [page] and [per_page], each with its value as
    JavaScript prints the number: that is the decimal numeral for the page
    size, and for the page when it is at most 2^53 - 1.  When the answer is
    a listing, the text returned holds the summary of each of its ideas and
    ends with the line "Page X of Y (Z total ideas)" of its pagination. *)
Theorem list_ideas_request_and_text :
  forall (w : World) (log : list Request.t) (page per_page : Z),
    1 <= page ->
    1 <= per_page <= 100 ->
    let arguments := [("page", num page); ("per_page", num per_page)] in
    let path := "/api/v1/ideas?page=" ++ Number_toString page
                  ++ "&per_page=" ++ Number_toString per_page in
    let request :=
      Request.mk (API_BASE_URL w ++ path) "GET"
                 [ ("X-API-Key", API_KEY w); ("Accept", "application/json") ]
                 None in
    snd (call_tool "list_ideas" arguments w log) = (log ++ [request])%list
    /\ target path
       = Some ("/api/v1/ideas",
               [("page", Number_toString page);
                ("per_page", Number_toString per_page)])
    /\ Number_toString per_page = decimal per_page
    /\ (page <= MAX_SAFE_INTEGER -> Number_toString page = decimal page)
    /\ (forall (response : Response.t) (r : IdeasListResponse.t),
          fetch w log request = Ok response ->
          Response.ok response = true ->
          Response.json response = Ok (IdeasListResponse.to_value r) ->
          exists text : string,
            fst (call_tool "list_ideas" arguments w log) = Ok text
            /\ (forall idea : IdeaSummary.t,
                  In idea (IdeasListResponse.ideas r) ->
                  contains (formatIdeaSummary idea) text)
            /\ ends_with
                 ("Page "
                  ++ Number_toString
                       (PaginationMeta.current_page (IdeasListResponse.meta r))
                  ++ " of "
                  ++ Number_toString
                       (PaginationMeta.total_pages (IdeasListResponse.meta r))
                  ++ " ("
                  ++ Number_toString
                       (PaginationMeta.total_count (IdeasListResponse.meta r))
                  ++ " total ideas)")
                 text).
Proof.
  intros w log page per_page Hpage Hper arguments path request.
  subst arguments. rewrite (list_ideas_accepted _ _ Hpage Hper).
  split; [apply list_ideas_log|].
  split; [apply list_ideas_target|].
  split; [apply Number_toString_safe; unfold MAX_SAFE_INTEGER; cbn; lia|].
  split; [intros Hsafe; apply Number_toString_safe; lia|].
  intros response r Hfetch Hok Hjson.
  exists (listing r). split; [|apply listing_contents].
  assert (H : list_ideas page per_page w log
              = (Ok (listing r), (log ++ [request])%list)); [|now rewrite H].
  apply list_ideas_after. rewrite apiRequest_run.
  subst request path. unfold request_for.
  cbn [ApiRequestOptions.method ApiRequestOptions.body ApiRequestOptions.empty].
  now rewrite Hfetch, Hok, Hjson.
Qed.

Definition sample_summary (i : Z) (title : string) : IdeaSummary.t :=
  IdeaSummary.mk i title "public" "seed" 2 3 false "2024-01-01" "2024-01-04"
                 sample_user.

Definition sample_listing : IdeasListResponse.t :=
  IdeasListResponse.mk [sample_summary 11 "Lamp"; sample_summary 12 "Kite"]
                       (PaginationMeta.mk 2 7 31).

Lemma list_ideas_request_and_text_witness :
  let w := sample_world (Response.mk 200 "OK" "listing"
                           (Ok (IdeasListResponse.to_value sample_listing))) in
  let request :=
    Request.mk "https://tanebi.app/api/v1/ideas?page=2&per_page=5" "GET"
               [ ("X-API-Key", "secret"); ("Accept", "application/json") ] None in
  snd (call_tool "list_ideas" [("page", num 2); ("per_page", num 5)] w [])
  = [request]
  /\ target "/api/v1/ideas?page=2&per_page=5"
     = Some ("/api/v1/ideas", [("page", "2"); ("per_page", "5")])
  /\ exists text : string,
      fst (call_tool "list_ideas" [("page", num 2); ("per_page", num 5)] w [])
      = Ok text
      /\ (forall idea : IdeaSummary.t,
            In idea (IdeasListResponse.ideas sample_listing) ->
            contains (formatIdeaSummary idea) text)
      /\ ends_with "Page 2 of 7 (31 total ideas)" text.
Proof.
  intros w request.
  destruct (list_ideas_request_and_text w [] 2 5 ltac:(lia) ltac:(lia))
    as (Hsent & Htarget & _ & _ & Htext).
  split; [exact Hsent|]. split; [exact Htarget|].
  exact (Htext (Response.mk 200 "OK" "listing"
                  (Ok (IdeasListResponse.to_value sample_listing)))
               sample_listing eq_refl eq_refl eq_refl).
Defined.

Example list_ideas_sample :
  fst (list_ideas 2 5
         (sample_world (Response.mk 200 "OK" "listing"
                          (Ok (IdeasListResponse.to_value sample_listing)))) [])
  = Ok ("[ID: 11] Lamp" ++ LF ++ "  Stage: seed | Visibility: public" ++ LF
        ++ "  Author: Aki" ++ LF ++ "  Reactions: 2 | Comments: 3" ++ LF
        ++ "  Created: 2024-01-01" ++ LFLF
        ++ "[ID: 12] Kite" ++ LF ++ "  Stage: seed | Visibility: public" ++ LF
        ++ "  Author: Aki" ++ LF ++ "  Reactions: 2 | Comments: 3" ++ LF
        ++ "  Created: 2024-01-01" ++ LFLF
        ++ "Page 2 of 7 (31 total ideas)").
Proof. reflexivity. Qed.

(** * Further properties of the code *)

(** ** Startup and the base URL *)

Fixpoint last_char (s : string) : option ascii :=
  match s with
  | EmptyString => None
  | String c EmptyString => Some c
  | String _ rest => last_char rest
  end.

Lemma last_char_app (pre : string) (c : ascii) :
  last_char (pre ++ String c "") = Some c.
Proof.
  induction pre as [|x pre IH]; [reflexivity|].
  cbn [append last_char]. destruct (pre ++ String c "") eqn:E; [|exact IH].
  destruct pre; discriminate.
Qed.

Lemma ends_with_slash_last (s : string) :
  ends_with "/" s -> last_char s = Some "/"%char.
Proof. intros (pre & ->). apply last_char_app. Qed.

Lemma slashes_end_with_slash (c : ascii) (s : string) :
  Config.slashes_to_end (String c s) = true -> ends_with "/" (String c s).
Proof.
  revert c. induction s as [|x s IH]; intros c H; cbn in H.
  - rewrite andb_true_r in H. apply Ascii.eqb_eq in H. subst. now exists "".
  - apply andb_true_iff in H as [_ H].
    destruct (IH x H) as (pre & E). exists (String c pre). cbn. now rewrite E.
Qed.

Lemma strip_fixed (s : string) :
  ~ ends_with "/" s -> Config.replace_trailing_slashes s = s.
Proof.
  induction s as [|c s IH]; intros H; [reflexivity|].
  cbn [Config.replace_trailing_slashes].
  destruct (Config.slashes_to_end (String c s)) eqn:E.
  - destruct H. now apply slashes_end_with_slash.
  - f_equal. apply IH. intros (pre & Hs). apply H.
    exists (String c pre). cbn. now rewrite Hs.
Qed.

Lemma API_BASE_URL_shape (e : Config.process_env) :
  Config.API_BASE_URL e <> "" /\ ~ ends_with "/" (Config.API_BASE_URL e).
Proof.
  destruct e as [key [v|]]; unfold Config.API_BASE_URL, or_else;
    cbn [Config.TANEBI_API_BASE_URL option_map].
  - destruct (Config.replace_trailing_slashes v) as [|c s] eqn:E; cbn [truthy].
    + split; [discriminate|]. intros H. apply ends_with_slash_last in H.
      discriminate.
    + split; [discriminate|]. intros (pre & H). rewrite <- E in H.
      exact (strip_no_trailing_slash _ _ H).
  - split; [discriminate|]. intros H. apply ends_with_slash_last in H.
    discriminate.
Qed.

(** X1: startup.  The process exits, with code 1, exactly when
    [TANEBI_API_KEY] is unset or empty or connecting the transport fails; a
    missing key exits whatever the transport would do.  Otherwise the
    server runs with that key, which is not empty, and with the base URL
    computed from [TANEBI_API_BASE_URL], which is not empty and has no
    trailing slash. *)
Theorem main_exit_or_serve :
  forall (e : Config.process_env) (connect : result unit)
         (remote : list Request.t -> Request.t -> result Response.t),
    (main e connect remote = Exit 1
     <-> Config.TANEBI_API_KEY e = None
         \/ Config.TANEBI_API_KEY e = Some ""
         \/ exists err, connect = Throw err)
    /\ (forall code : Z, main e connect remote = Exit code -> code = 1)
    /\ (forall w : World,
          main e connect remote = Serving w ->
          connect = Ok tt
          /\ Config.TANEBI_API_KEY e = Some (API_KEY w)
          /\ API_KEY w <> ""
          /\ API_BASE_URL w = Config.API_BASE_URL e
          /\ API_BASE_URL w <> ""
          /\ ~ ends_with "/" (API_BASE_URL w)
          /\ fetch w = remote).
Proof.
  intros e connect remote. unfold main, Config.API_KEY.
  destruct (API_BASE_URL_shape e) as [Hne Hslash].
  destruct (Config.TANEBI_API_KEY e) as [[|c k]|]; cbn [truthy].
  - repeat split; auto; try discriminate. now intros code [= <-].
  - destruct connect as [[]|err].
    + split; [|split]; try discriminate.
      * split; [discriminate|]. intros [H|[H|(err & H)]]; discriminate.
      * intros w [= <-]. cbn [API_KEY API_BASE_URL fetch].
        repeat split; auto. discriminate.
    + split; [|split]; try discriminate.
      * split; eauto.
      * now intros code [= <-].
  - repeat split; auto; try discriminate. now intros code [= <-].
Qed.

(** X2: whatever the environment, the base URL is not empty and does not
    end in a slash, so a path that starts with a slash can be appended to
    it as it is. *)
Theorem API_BASE_URL_never_empty_nor_slashed :
  forall e : Config.process_env,
    Config.API_BASE_URL e <> ""
    /\ ~ ends_with "/" (Config.API_BASE_URL e).
Proof. exact API_BASE_URL_shape. Qed.

(** X3: stripping is idempotent, and a base URL that the server computed
    is kept as it is when it is given back as [TANEBI_API_BASE_URL]. *)
Theorem API_BASE_URL_fixed_point :
  forall (v : string) (e : Config.process_env) (key : option string),
    Config.replace_trailing_slashes (Config.replace_trailing_slashes v)
    = Config.replace_trailing_slashes v
    /\ Config.API_BASE_URL
         {| Config.TANEBI_API_KEY := key;
            Config.TANEBI_API_BASE_URL := Some (Config.API_BASE_URL e) |}
       = Config.API_BASE_URL e.
Proof.
  intros v e key. split.
  - apply strip_fixed. intros (pre & H). exact (strip_no_trailing_slash _ _ H).
  - destruct (API_BASE_URL_shape e) as [Hne Hslash].
    unfold Config.API_BASE_URL at 1, or_else.
    cbn [Config.TANEBI_API_BASE_URL option_map].
    rewrite (strip_fixed _ Hslash).
    destruct (Config.API_BASE_URL e); [now destruct Hne | reflexivity].
Qed.

(** ** The API client, whatever the answer *)

(** X4: every call of [apiRequest] hands exactly one request to [fetch],
    whatever comes back.  Its URL is the base URL followed by the path, its
    method is the one given or GET, its body is the one given, it carries
    the API key and asks for JSON, and it has a [Content-Type] header
    exactly when it has a body. *)
Theorem apiRequest_sends_one_request :
  forall (w : World) (log : list Request.t) (path : string)
         (options : ApiRequestOptions.t),
  exists rq : Request.t,
    snd (apiRequest path options w log) = (log ++ [rq])%list
    /\ Request.url rq = API_BASE_URL w ++ path
    /\ Request.method rq
       = match ApiRequestOptions.method options with
         | Some m => m
         | None => "GET"
         end
    /\ Request.body rq = ApiRequestOptions.body options
    /\ In ("X-API-Key", API_KEY w) (Request.headers rq)
    /\ In ("Accept", "application/json") (Request.headers rq)
    /\ ((exists v, In ("Content-Type", v) (Request.headers rq))
        <-> ApiRequestOptions.body options <> None).
Proof.
  intros w log path options. exists (request_for w path options).
  rewrite apiRequest_run. cbn [snd]. split; [reflexivity|].
  unfold request_for. cbn [Request.url Request.method Request.body Request.headers].
  do 3 (split; [reflexivity|]).
  destruct (ApiRequestOptions.body options) as [b|].
  - split; [now left|]. split; [now right; left|].
    split; [discriminate|]. intros _. eexists. right. right. now left.
  - split; [now left|]. split; [now right; left|].
    split; [|now intros H]. intros (v & [H|[H|[]]]); discriminate.
Qed.

(** X5: [apiRequest] does not catch.  When [fetch] itself fails, or when
    the status is a success but [response.json()] fails, the call fails
    with that very error, after its one request. *)
Theorem apiRequest_rethrows :
  forall (w : World) (log : list Request.t) (path : string)
         (options : ApiRequestOptions.t) (e : exn),
    fetch w log (request_for w path options) = Throw e
    \/ (exists response : Response.t,
          fetch w log (request_for w path options) = Ok response
          /\ Response.ok response = true
          /\ Response.json response = Throw e) ->
    apiRequest path options w log
    = (Throw e, (log ++ [request_for w path options])%list).
Proof.
  intros w log path options e H. rewrite apiRequest_run.
  destruct H as [-> | (response & -> & -> & ->)]; reflexivity.
Qed.

Definition offline : World :=
  {| API_KEY := "secret"; API_BASE_URL := "https://tanebi.app";
     fetch := fun _ _ => Throw (NetworkError "fetch failed") |}.

Lemma apiRequest_rethrows_witness :
  apiRequest "/api/v1/ideas/5" ApiRequestOptions.empty offline []
  = (Throw (NetworkError "fetch failed"),
     [Request.mk "https://tanebi.app/api/v1/ideas/5" "GET"
        [ ("X-API-Key", "secret"); ("Accept", "application/json") ] None]).
Proof.
  exact (apiRequest_rethrows offline [] "/api/v1/ideas/5"
           ApiRequestOptions.empty (NetworkError "fetch failed")
           (or_introl eq_refl)).
Defined.

(** ** The tools and the network *)

Lemma get_idea_log (idea_id : Z) (w : World) (log : list Request.t) :
  snd (get_idea idea_id w log)
  = (log ++ [request_for w ("/api/v1/ideas/" ++ Number_toString idea_id)
               ApiRequestOptions.empty])%list.
Proof.
  unfold get_idea. apply apiRequest_then_log. intros a l.
  apply unwrap_cast_log.
Qed.

(** X6: a tool call sends at most one request, whatever the tool, the
    arguments and the answer (nothing is retried).  The request, when there
    is one, carries the API key and goes to the base URL followed by
    [/api/v1/ideas]; it is a GET without body, except for [create_idea],
    whose request is a POST. *)
Theorem call_tool_at_most_one_request :
  forall (name : string) (arguments : Obj) (w : World) (log : list Request.t),
    snd (call_tool name arguments w log) = log
    \/ exists rq : Request.t,
        snd (call_tool name arguments w log) = (log ++ [rq])%list
        /\ In ("X-API-Key", API_KEY w) (Request.headers rq)
        /\ (exists rest : string,
              Request.url rq = API_BASE_URL w ++ "/api/v1/ideas" ++ rest)
        /\ (Request.method rq = "GET" /\ Request.body rq = None
            \/ Request.method rq = "POST" /\ name = "create_idea").
Proof.
  intros name arguments w log. unfold call_tool.
  destruct (String.eqb_spec name "list_ideas") as [_|_].
  { destruct (ListIdeas.parse arguments) as [a|]; [right | now left].
    eexists. split; [apply list_ideas_log|].
    split; [now left|]. split; [|now left].
    eexists. cbn [request_for Request.url]. reflexivity. }
  destruct (String.eqb_spec name "get_idea") as [_|_].
  { destruct (GetIdea.parse arguments) as [i|]; [right | now left].
    eexists. split; [apply get_idea_log|].
    split; [now left|]. split; [|now left].
    eexists. cbn [request_for Request.url]. reflexivity. }
  destruct (String.eqb_spec name "create_idea") as [->|_]; [|now left].
  destruct (CreateIdea.parse arguments) as [a|]; [right | now left].
  eexists. split; [apply create_idea_log|].
  split; [now left|]. split; [|now right].
  exists "". reflexivity.
Qed.

Lemma idea_id_accepted (n : Z) :
  1 <= n -> GetIdea.parse [("idea_id", num n)] = Some n.
Proof.
  intros H. unfold GetIdea.parse. cbn [get String.eqb Ascii.eqb Bool.eqb].
  unfold num. rewrite parse_number_given.
  change (Zod.checks GetIdea.idea_id) with [Zod.Int; Zod.Positive].
  cbn [forallb Zod.passes]. rewrite integer_inject_Z, positive_inject_Z by exact H.
  cbn [andb negb View.bind]. apply to_integer_inject_Z.
Qed.

(** X7: [get_idea] called with an integer id from 1 to 2^53 - 1 sends one
    GET, with no body and no [Content-Type], to [/api/v1/ideas/] followed
    by the decimal numeral of the id, whatever the answer. *)
Theorem get_idea_request :
  forall (w : World) (log : list Request.t) (n : Z),
    1 <= n <= MAX_SAFE_INTEGER ->
    call_tool "get_idea" [("idea_id", num n)] w log = get_idea n w log
    /\ snd (get_idea n w log)
       = (log ++ [Request.mk
                    (API_BASE_URL w ++ "/api/v1/ideas/" ++ decimal n)
                    "GET"
                    [ ("X-API-Key", API_KEY w); ("Accept", "application/json") ]
                    None])%list.
Proof.
  intros w log n H. split.
  - unfold call_tool. cbn [String.eqb Ascii.eqb Bool.eqb].
    now rewrite (idea_id_accepted n (proj1 H)).
  - rewrite get_idea_log, <- (Number_toString_safe n) by lia. reflexivity.
Qed.

Lemma get_idea_request_witness :
  snd (call_tool "get_idea" [("idea_id", num 42)] offline [])
  = [Request.mk "https://tanebi.app/api/v1/ideas/42" "GET"
       [ ("X-API-Key", "secret"); ("Accept", "application/json") ] None].
Proof.
  destruct (get_idea_request offline [] 42
              ltac:(unfold MAX_SAFE_INTEGER; cbn; lia)) as [Hcall Hlog].
  rewrite Hcall. exact Hlog.
Defined.

(** ** What the schemas let through *)

Lemma parse_number_inv (s : Zod.ZodNumber) (input : option value) (q : Q) :
  Zod.parse_number s input = Some q ->
  forallb (Zod.passes q) (Zod.checks s) = true
  /\ (input = Some (JNumber q) \/ input = None /\ Zod.number_default s = Some q).
Proof.
  unfold Zod.parse_number.
  destruct input as [[| |q'| | |]|]; try discriminate.
  - destruct (forallb _ _) eqn:E; [|discriminate]. intros [= <-]. auto.
  - destruct (Zod.number_default s) as [d|]; [|discriminate].
    cbn [option_map]. destruct (forallb _ _) eqn:E; [|discriminate].
    intros [= <-]. auto.
Qed.

Lemma to_integer_exact (q : Q) (n : Z) :
  to_integer q = Some n -> Qnum q = n * Zpos (Qden q).
Proof.
  unfold to_integer, Number_isInteger.
  destruct (Z.eqb_spec (Qnum q mod Zpos (Qden q)) 0) as [E|]; [|discriminate].
  intros [= <-]. pose proof (Z.div_mod (Qnum q) (Zpos (Qden q))) as D. lia.
Qed.

Lemma to_integer_positive (q : Q) (n : Z) :
  to_integer q = Some n -> Qle_bool q 0 = false -> 1 <= n.
Proof.
  intros Hn Hq. apply to_integer_exact in Hn.
  destruct (Z_lt_le_dec n 1) as [Hlt|]; [|assumption]. exfalso.
  assert (Hle : (q <= 0)%Q) by (unfold Qle; cbn; nia).
  apply Qle_bool_iff in Hle. congruence.
Qed.

Lemma to_integer_at_most (q : Q) (n b : Z) :
  to_integer q = Some n -> Qle_bool q (inject_Z b) = true -> n <= b.
Proof.
  intros Hn Hq. apply to_integer_exact in Hn.
  apply Qle_bool_iff in Hq. unfold Qle in Hq. cbn in Hq. nia.
Qed.

Lemma to_integer_some (q : Q) :
  Number_isInteger q = true -> exists n, to_integer q = Some n.
Proof. unfold to_integer. intros ->. eauto. Qed.

Lemma page_parse_inv (input : option value) (q : Q) :
  Zod.parse_number ListIdeas.page input = Some q ->
  exists p, to_integer q = Some p /\ 1 <= p /\ (input = None -> p = 1).
Proof.
  intros H. apply parse_number_inv in H as [Hc Hin].
  rewrite page_checks in Hc. cbn [forallb Zod.passes] in Hc.
  apply andb_true_iff in Hc as [Hint Hc]. rewrite andb_true_r in Hc.
  apply negb_true_iff in Hc.
  destruct (to_integer_some q Hint) as (p & Hp). exists p.
  split; [exact Hp|]. split; [eapply to_integer_positive; eassumption|].
  intros ->. destruct Hin as [|[_ Hd]]; [discriminate|].
  injection Hd as <-. now injection Hp as <-.
Qed.

Lemma per_page_parse_inv (input : option value) (q : Q) :
  Zod.parse_number ListIdeas.per_page input = Some q ->
  exists n, to_integer q = Some n /\ 1 <= n <= 100 /\ (input = None -> n = 20).
Proof.
  intros H. apply parse_number_inv in H as [Hc Hin].
  rewrite per_page_checks in Hc. cbn [forallb Zod.passes] in Hc.
  apply andb_true_iff in Hc as [Hint Hc].
  apply andb_true_iff in Hc as [Hpos Hmax]. rewrite andb_true_r in Hmax.
  apply negb_true_iff in Hpos.
  destruct (to_integer_some q Hint) as (n & Hn). exists n.
  split; [exact Hn|]. split; [split|].
  - eapply to_integer_positive; eassumption.
  - apply (to_integer_at_most q n 100 Hn Hmax).
  - intros ->. destruct Hin as [|[_ Hd]]; [discriminate|].
    injection Hd as <-. now injection Hn as <-.
Qed.

Lemma parse_number_not_a_number (s : Zod.ZodNumber) (v : value) :
  (forall q, v <> JNumber q) -> Zod.parse_number s (Some v) = None.
Proof.
  intros H. destruct v; try reflexivity. now destruct (H q).
Qed.

(** X8: whatever the arguments of [list_ideas], either the call is refused
    with nothing sent, or the handler runs with a page of at least 1 and a
    page size from 1 to 100, a missing [page] being 1 and a missing
    [per_page] being 20.  A [page] or [per_page] that is present and not a
    number is refused. *)
Theorem list_ideas_arguments_in_range :
  forall (w : World) (log : list Request.t) (arguments : Obj),
    (call_tool "list_ideas" arguments w log = (Throw INVALID_PARAMS, log)
     \/ exists p n : Z,
         1 <= p /\ 1 <= n <= 100
         /\ (get "page" arguments = None -> p = 1)
         /\ (get "per_page" arguments = None -> n = 20)
         /\ call_tool "list_ideas" arguments w log = list_ideas p n w log)
    /\ ((exists v : value,
           (get "page" arguments = Some v \/ get "per_page" arguments = Some v)
           /\ forall q, v <> JNumber q) ->
        call_tool "list_ideas" arguments w log = (Throw INVALID_PARAMS, log)).
Proof.
  intros w log arguments. rewrite call_list_ideas. unfold ListIdeas.parse.
  split.
  - destruct (Zod.parse_number ListIdeas.page _) as [q|] eqn:Ep; [|now left].
    destruct (Zod.parse_number ListIdeas.per_page _) as [q'|] eqn:En; [|now left].
    destruct (page_parse_inv _ _ Ep) as (p & Hp & Hp1 & Hpd).
    destruct (per_page_parse_inv _ _ En) as (n & Hn & Hn1 & Hnd).
    right. exists p, n. cbn [View.bind]. rewrite Hp, Hn. auto.
  - intros (v & [Hv|Hv] & Hnot); rewrite Hv.
    + now rewrite (parse_number_not_a_number _ _ Hnot).
    + rewrite (parse_number_not_a_number _ _ Hnot).
      now destruct (Zod.parse_number ListIdeas.page _).
Qed.

(** X9: whatever the arguments of [get_idea], either the call is refused
    with nothing sent, or [idea_id] is a number that is an integer of at
    least 1 and the handler runs with it.  There is no default: a call
    without [idea_id] is refused. *)
Theorem get_idea_arguments :
  forall (w : World) (log : list Request.t) (arguments : Obj),
    (call_tool "get_idea" arguments w log = (Throw INVALID_PARAMS, log)
     \/ exists (q : Q) (n : Z),
         get "idea_id" arguments = Some (JNumber q)
         /\ (inject_Z n == q)%Q /\ 1 <= n
         /\ call_tool "get_idea" arguments w log = get_idea n w log)
    /\ (get "idea_id" arguments = None ->
        call_tool "get_idea" arguments w log = (Throw INVALID_PARAMS, log)).
Proof.
  intros w log arguments. unfold call_tool.
  cbn [String.eqb Ascii.eqb Bool.eqb]. unfold GetIdea.parse. split.
  - destruct (Zod.parse_number GetIdea.idea_id _) as [q|] eqn:E; [|now left].
    apply parse_number_inv in E as [Hc Hin].
    change (Zod.checks GetIdea.idea_id) with [Zod.Int; Zod.Positive] in Hc.
    cbn [forallb Zod.passes] in Hc.
    apply andb_true_iff in Hc as [Hint Hc]. rewrite andb_true_r in Hc.
    apply negb_true_iff in Hc.
    destruct (to_integer_some q Hint) as (n & Hn).
    destruct Hin as [Hin|[_ Hd]]; [|discriminate].
    right. exists q, n. cbn [View.bind]. rewrite Hn.
    split; [exact Hin|]. split; [|split; [|reflexivity]].
    + apply to_integer_exact in Hn. unfold Qeq. cbn. lia.
    + eapply to_integer_positive; eassumption.
  - now intros ->.
Qed.

Lemma CreateIdea_parse_visibility (arguments : Obj) (a : CreateIdea.args) :
  CreateIdea.parse arguments = Some a ->
  get "visibility" arguments = None /\ CreateIdea.visibility_arg a = "public"
  \/ get "visibility" arguments = Some (JString (CreateIdea.visibility_arg a)).
Proof.
  unfold CreateIdea.parse, View.bind.
  destruct (Zod.parse_string CreateIdea.title _) as [[t|]|]; try discriminate.
  destruct (Zod.parse_string CreateIdea.content _) as [c|]; try discriminate.
  unfold Zod.parse_enum.
  destruct (get "visibility" arguments) as [[| | |v| |]|]; try discriminate;
    cbn [CreateIdea.visibility Zod.enum_with_default Zod.enum Zod.enum_default
         Zod.options option_map];
    match goal with
    | |- context [existsb ?f ?l] => destruct (existsb f l); [|discriminate]
    end; intros [= <-]; cbn; auto.
Qed.

Lemma visibility_refused (v : string) :
  v <> "public" -> v <> "private" ->
  Zod.parse_enum CreateIdea.visibility (Some (JString v)) = None.
Proof.
  intros H1 H2. unfold Zod.parse_enum.
  cbn [CreateIdea.visibility Zod.enum_with_default Zod.enum Zod.options existsb].
  destruct (String.eqb_spec v "public"); [contradiction|].
  destruct (String.eqb_spec v "private"); [contradiction | reflexivity].
Qed.

(** X10: whatever the arguments of [create_idea], either the call is
    refused with nothing sent, or the handler runs with the title given,
    which is a non-empty string, the content given (a string, or none), and
    a visibility that is ["public"] or ["private"], ["public"] when none is
    given.  A missing or empty title and a visibility that is another
    string are refused. *)
Theorem create_idea_arguments :
  forall (w : World) (log : list Request.t) (arguments : Obj),
    (call_tool "create_idea" arguments w log = (Throw INVALID_PARAMS, log)
     \/ exists (t : string) (c : option string) (v : string),
         get "title" arguments = Some (JString t) /\ t <> ""
         /\ (get "content" arguments = None /\ c = None
             \/ exists s, get "content" arguments = Some (JString s) /\ c = Some s)
         /\ (get "visibility" arguments = None /\ v = "public"
             \/ get "visibility" arguments = Some (JString v))
         /\ (v = "public" \/ v = "private")
         /\ call_tool "create_idea" arguments w log = create_idea t c v w log)
    /\ (get "title" arguments = None
        \/ get "title" arguments = Some (JString "")
        \/ (exists v, get "visibility" arguments = Some (JString v)
                      /\ v <> "public" /\ v <> "private") ->
        call_tool "create_idea" arguments w log = (Throw INVALID_PARAMS, log)).
Proof.
  intros w log arguments. unfold call_tool.
  cbn [String.eqb Ascii.eqb Bool.eqb]. split.
  - destruct (CreateIdea.parse arguments) as [a|] eqn:E; [right | now left].
    destruct (CreateIdea_parse_inv _ _ E) as (Ht & Hne & Hc & Hv).
    exists (CreateIdea.title_arg a), (CreateIdea.content_arg a),
           (CreateIdea.visibility_arg a).
    split; [exact Ht|]. split; [exact Hne|]. split; [exact Hc|].
    split; [exact (CreateIdea_parse_visibility _ _ E)|]. split; [exact Hv|].
    reflexivity.
  - intros H.
    assert (E : CreateIdea.parse arguments = None); [|now rewrite E].
    unfold CreateIdea.parse, View.bind.
    destruct H as [H | [H | (v & H & H1 & H2)]]; try (now rewrite H).
    rewrite H, (visibility_refused v H1 H2).
    destruct (Zod.parse_string CreateIdea.title _) as [[t|]|]; try reflexivity.
    now destruct (Zod.parse_string CreateIdea.content _).
Qed.

(** ** The shapes of a response *)

(** What ["idea" in data ? data.idea : data] evaluates to. *)
Definition unwrapped (data : value) : result value :=
  match in_op "idea" data with
  | Ok true =>
      match member "idea" data with
      | Some idea => Ok idea
      | None => Throw (TypeError "Cannot read properties of undefined")
      end
  | Ok false => Ok data
  | Throw e => Throw e
  end.

(** The idea that [get_idea] and [create_idea] format, when the remote side
    answers [r]. *)
Definition idea_of (r : Response.t) : result IdeaDetail.t :=
  if Response.ok r then
    match Response.json r with
    | Ok data =>
        match unwrapped data with
        | Ok v =>
            match IdeaDetail.of_value v with
            | Some d => Ok d
            | None => Throw (TypeError "Cannot read properties of undefined")
            end
        | Throw e => Throw e
        end
    | Throw e => Throw e
    end
  else Throw (Error (failure_message r)).

Definition map_result {A B : Type} (f : A -> B) (r : result A) : result B :=
  match r with
  | Ok a => Ok (f a)
  | Throw e => Throw e
  end.

Lemma unwrap_run (data : value) (w : World) (log : list Request.t) :
  unwrap data w log = (unwrapped data, log).
Proof.
  unfold unwrap, unwrapped, bind, lift.
  destruct (in_op "idea" data) as [[|]|e]; try reflexivity.
  now destruct (member "idea" data).
Qed.

Lemma format_answering {B : Type} (f : IdeaDetail.t -> B) (path : string)
  (options : ApiRequestOptions.t) (w : World) (r : Response.t)
  (log : list Request.t) :
  fst (bind (apiRequest path options)
         (fun data =>
            bind (unwrap data)
              (fun idea => bind (cast IdeaDetail.of_value idea)
                             (fun idea => ret (f idea))))
         (answering w r) log)
  = map_result f (idea_of r).
Proof.
  unfold bind at 1. rewrite apiRequest_run. cbn [answering fetch].
  unfold idea_of. destruct (Response.ok r); [|reflexivity].
  destruct (Response.json r) as [data|e]; [|reflexivity].
  unfold bind at 1. rewrite unwrap_run.
  destruct (unwrapped data) as [v|e]; [|reflexivity].
  unfold bind, cast. now destruct (IdeaDetail.of_value v).
Qed.

Lemma get_idea_answering (idea_id : Z) (w : World) (r : Response.t)
  (log : list Request.t) :
  fst (get_idea idea_id (answering w r) log)
  = map_result formatIdeaDetail (idea_of r).
Proof. apply format_answering. Qed.

Lemma create_idea_answering (title : string) (content : option string)
  (visibility : string) (w : World) (r : Response.t) (log : list Request.t) :
  fst (create_idea title content visibility (answering w r) log)
  = map_result (fun d => "Idea created successfully!" ++ LFLF ++ formatIdeaDetail d)
               (idea_of r).
Proof. apply (format_answering (fun d => _ ++ _ ++ formatIdeaDetail d)). Qed.

(** A JSON value that is not an object or an array. *)
Definition primitive (v : value) : bool :=
  match v with
  | JNull | JBool _ | JNumber _ | JString _ => true
  | JArray _ | JObject _ => false
  end.

(** X11: when the body of a successful response is [null], a boolean, a
    number or a string, [get_idea] and [create_idea] fail with a
    [TypeError]: the [in] test of the unwrapping needs an object. *)
Theorem primitive_response_is_a_TypeError :
  forall (w : World) (r : Response.t) (log : list Request.t) (data : value)
         (idea_id : Z) (title : string) (content : option string)
         (visibility : string),
    Response.ok r = true ->
    Response.json r = Ok data ->
    primitive data = true ->
    exists message : string,
      fst (get_idea idea_id (answering w r) log) = Throw (TypeError message)
      /\ fst (create_idea title content visibility (answering w r) log)
         = Throw (TypeError message).
Proof.
  intros w r log data idea_id title content visibility Hok Hjson Hprim.
  rewrite get_idea_answering, create_idea_answering.
  unfold idea_of. rewrite Hok, Hjson.
  destruct data; try discriminate; eexists; split; reflexivity.
Qed.

Lemma primitive_response_is_a_TypeError_witness :
  exists message : string,
    fst (get_idea 5 (answering offline (Response.mk 200 "OK" "null" (Ok JNull))) [])
    = Throw (TypeError message)
    /\ fst (create_idea "Draft" None "public"
              (answering offline (Response.mk 200 "OK" "null" (Ok JNull))) [])
       = Throw (TypeError message).
Proof.
  exact (primitive_response_is_a_TypeError offline
           (Response.mk 200 "OK" "null" (Ok JNull)) [] JNull 5 "Draft" None
           "public" eq_refl eq_refl eq_refl).
Defined.

(** X12: the [idea] property wins.  When the response object has a
    property [idea] holding an idea, that idea is the one formatted,
    whatever else the object holds, be it a whole other idea. *)
Theorem idea_property_takes_precedence :
  forall (w : World) (r : Response.t) (log : list Request.t) (o : Obj)
         (d : IdeaDetail.t) (idea_id : Z) (title : string)
         (content : option string) (visibility : string),
    Response.ok r = true ->
    Response.json r = Ok (JObject o) ->
    get "idea" o = Some (IdeaDetail.to_value d) ->
    fst (get_idea idea_id (answering w r) log) = Ok (formatIdeaDetail d)
    /\ fst (create_idea title content visibility (answering w r) log)
       = Ok ("Idea created successfully!" ++ LFLF ++ formatIdeaDetail d).
Proof.
  intros w r log o d idea_id title content visibility Hok Hjson Hidea.
  rewrite get_idea_answering, create_idea_answering.
  unfold idea_of, unwrapped, in_op, has_key, member.
  rewrite Hok, Hjson, Hidea, IdeaDetail_round_trip. split; reflexivity.
Qed.

Definition other_detail : IdeaDetail.t :=
  sample_idea [sample_line 1 "text" "other" 0] [].

(** An idea object that also has an [idea] property: the inner one is
    formatted. *)
Lemma idea_property_takes_precedence_witness :
  let o := match IdeaDetail.to_value other_detail with
           | JObject props => (props ++ [("idea", IdeaDetail.to_value sample_detail)])%list
           | _ => []
           end in
  let r := Response.mk 200 "OK" "both" (Ok (JObject o)) in
  fst (get_idea 5 (answering offline r) []) = Ok (formatIdeaDetail sample_detail)
  /\ fst (create_idea "Draft" None "public" (answering offline r) [])
     = Ok ("Idea created successfully!" ++ LFLF ++ formatIdeaDetail sample_detail).
Proof.
  intros o r.
  exact (idea_property_takes_precedence offline r [] o sample_detail 5 "Draft"
           None "public" eq_refl eq_refl eq_refl).
Defined.

(** X13: only one level is unwrapped.  An idea wrapped twice,
    [{ idea: { idea: d } }], is not found: the handlers fail with a
    [TypeError], the inner envelope having no [user] to read a name from. *)
Theorem twice_wrapped_is_a_TypeError :
  forall (w : World) (r : Response.t) (log : list Request.t)
         (d : IdeaDetail.t) (idea_id : Z) (title : string)
         (content : option string) (visibility : string),
    Response.ok r = true ->
    Response.json r
    = Ok (JObject [("idea", JObject [("idea", IdeaDetail.to_value d)])]) ->
    exists message : string,
      fst (get_idea idea_id (answering w r) log) = Throw (TypeError message)
      /\ fst (create_idea title content visibility (answering w r) log)
         = Throw (TypeError message).
Proof.
  intros w r log d idea_id title content visibility Hok Hjson.
  rewrite get_idea_answering, create_idea_answering.
  unfold idea_of. rewrite Hok, Hjson. eexists. split; reflexivity.
Qed.

Lemma twice_wrapped_is_a_TypeError_witness :
  let r := Response.mk 200 "OK" "twice"
             (Ok (JObject [("idea",
                            JObject [("idea", IdeaDetail.to_value sample_detail)])])) in
  exists message : string,
    fst (get_idea 5 (answering offline r) []) = Throw (TypeError message)
    /\ fst (create_idea "Draft" None "public" (answering offline r) [])
       = Throw (TypeError message).
Proof.
  intros r.
  exact (twice_wrapped_is_a_TypeError offline r [] sample_detail 5 "Draft" None
           "public" eq_refl eq_refl).
Defined.

(** X14: [create_idea] and [get_idea] treat a response alike.  Given the
    same answer, [create_idea] returns the success line, a blank line and
    exactly the text [get_idea] returns, and fails with the same error when
    [get_idea] fails. *)
Theorem create_idea_text_is_get_idea_text :
  forall (w : World) (r : Response.t) (log : list Request.t) (idea_id : Z)
         (title : string) (content : option string) (visibility : string),
    fst (create_idea title content visibility (answering w r) log)
    = map_result (fun text => "Idea created successfully!" ++ LFLF ++ text)
                 (fst (get_idea idea_id (answering w r) log)).
Proof.
  intros. rewrite get_idea_answering, create_idea_answering.
  now destruct (idea_of r).
Qed.

(** ** The formatters and the order and shape of their input *)

Lemma same_order_nil (ls : list IdeaLine.t) :
  same_order_per_position [] ls -> ls = [].
Proof.
  intros H. destruct ls as [|b ls]; [reflexivity|].
  specialize (H (IdeaLine.position b)). cbn [filter] in H.
  unfold at_key in H. rewrite Qeq_bool_refl in H. discriminate.
Qed.

Lemma same_order_sort (l1 l2 : list IdeaLine.t) :
  same_order_per_position l1 l2 ->
  Array_sort by_position l1 = Array_sort by_position l2.
Proof.
  intros H. apply (sort_unique IdeaLine.position).
  - apply sort_sorted, by_position_negative.
  - apply sort_sorted, by_position_negative.
  - intros q.
    rewrite (sort_stable _ _ by_position_negative l1 q).
    rewrite (sort_stable _ _ by_position_negative l2 q). apply H.
Qed.

(** X15: the text of an idea does not depend on the order in which its
    lines arrive, as long as the lines of each position arrive in the same
    order: two arrays of lines that agree position by position are
    formatted alike. *)
Theorem formatIdeaDetail_order_independent :
  forall (d : IdeaDetail.t) (l1 l2 : list IdeaLine.t),
    same_order_per_position l1 l2 ->
    formatIdeaDetail (IdeaDetail.with_lines l1 d)
    = formatIdeaDetail (IdeaDetail.with_lines l2 d).
Proof.
  intros d l1 l2 H. unfold formatIdeaDetail.
  rewrite !formatIdeaDetail_run_eq. cbn [fst]. rewrite !content_fst.
  change (IdeaDetail.lines (IdeaDetail.with_lines l1 d)) with l1.
  change (IdeaDetail.lines (IdeaDetail.with_lines l2 d)) with l2.
  change (header (IdeaDetail.with_lines l1 d)) with (header d).
  change (header (IdeaDetail.with_lines l2 d)) with (header d).
  change (reactions (IdeaDetail.with_lines l1 d)) with (reactions d).
  change (reactions (IdeaDetail.with_lines l2 d)) with (reactions d).
  rewrite (same_order_sort _ _ H).
  destruct l1 as [|a l1].
  - now rewrite (same_order_nil _ H).
  - destruct l2 as [|b l2]; [|reflexivity].
    assert (E : a :: l1 = []); [|discriminate].
    apply same_order_nil. intros q. symmetry. apply H.
Qed.

(** Lines at positions 3, 1, 2 and the same lines at positions 1, 2, 3. *)
Lemma formatIdeaDetail_order_independent_witness :
  formatIdeaDetail
    (sample_idea [sample_line 3 "text" "c" 0; sample_line 1 "heading" "a" 2;
                  sample_line 2 "text" "b" 0] [])
  = formatIdeaDetail
      (sample_idea [sample_line 1 "heading" "a" 2; sample_line 2 "text" "b" 0;
                    sample_line 3 "text" "c" 0] []).
Proof.
  apply (formatIdeaDetail_order_independent
           (sample_idea [] [])
           [sample_line 3 "text" "c" 0; sample_line 1 "heading" "a" 2;
            sample_line 2 "text" "b" 0]
           [sample_line 1 "heading" "a" 2; sample_line 2 "text" "b" 0;
            sample_line 3 "text" "c" 0]).
  intros q. cbn [filter]. unfold at_key, sample_line.
  cbn [IdeaLine.position].
  destruct (Qeq_bool 3 q) eqn:E3, (Qeq_bool 1 q) eqn:E1, (Qeq_bool 2 q) eqn:E2;
    try reflexivity; exfalso;
    repeat match goal with
           | H : Qeq_bool _ _ = true |- _ => apply Qeq_bool_eq in H
           | H : Qeq_bool _ _ = false |- _ => clear H
           end;
    match goal with
    | H1 : (?a == q)%Q, H2 : (?b == q)%Q |- _ =>
        assert (X : (a == b)%Q) by (now rewrite H1, H2); discriminate X
    end.
Defined.

Fixpoint count (c : ascii) (s : string) : nat :=
  match s with
  | EmptyString => 0
  | String x rest => (if Ascii.eqb x c then 1 else 0) + count c rest
  end.

Lemma count_app (c : ascii) (a b : string) :
  count c (a ++ b) = (count c a + count c b)%nat.
Proof.
  induction a as [|x a IH]; [reflexivity|]. cbn [append count].
  rewrite IH. apply Nat.add_assoc.
Qed.

Lemma count_absent (c : ascii) (s : string) :
  occurs c s = false -> count c s = 0%nat.
Proof.
  induction s as [|x s IH]; [reflexivity|]. cbn [occurs count].
  intros H. apply orb_false_iff in H as [-> H]. now rewrite (IH H).
Qed.

Lemma count_Number_toString (n : Z) : count "010" (Number_toString n) = 0%nat.
Proof.
  apply count_absent, (all_chars_occurs number_char);
    [apply Number_toString_chars | reflexivity].
Qed.

(** X16: a summary is a block of five lines.  When no text field of the
    idea holds a line feed, the text of [formatIdeaSummary] holds exactly
    four. *)
Theorem formatIdeaSummary_five_lines :
  forall idea : IdeaSummary.t,
    occurs "010" (IdeaSummary.title idea) = false ->
    occurs "010" (IdeaSummary.current_stage idea) = false ->
    occurs "010" (IdeaSummary.visibility idea) = false ->
    occurs "010" (SimplifiedUser.display_name (IdeaSummary.user idea)) = false ->
    occurs "010" (IdeaSummary.created_at idea) = false ->
    count "010" (formatIdeaSummary idea) = 4%nat.
Proof.
  intros idea Ht Hs Hv Hu Hc. unfold formatIdeaSummary, join.
  cbn [String.concat]. rewrite !count_app, !count_Number_toString.
  rewrite (count_absent _ _ Ht), (count_absent _ _ Hs), (count_absent _ _ Hv),
    (count_absent _ _ Hu), (count_absent _ _ Hc).
  reflexivity.
Qed.

Lemma formatIdeaSummary_five_lines_witness :
  count "010" (formatIdeaSummary (sample_summary 11 "Lamp")) = 4%nat.
Proof.
  exact (formatIdeaSummary_five_lines (sample_summary 11 "Lamp")
           eq_refl eq_refl eq_refl eq_refl eq_refl).
Defined.

Lemma list_ideas_answering (page per_page : Z) (w : World) (r : Response.t)
  (log : list Request.t) :
  fst (list_ideas page per_page (answering w r) log)
  = if Response.ok r then
      match Response.json r with
      | Ok data =>
          match IdeasListResponse.of_value data with
          | Some listed => Ok (listing listed)
          | None => Throw (TypeError "Cannot read properties of undefined")
          end
      | Throw e => Throw e
      end
    else Throw (Error (failure_message r)).
Proof.
  unfold list_ideas, bind at 1. rewrite apiRequest_run. cbn [answering fetch].
  destruct (Response.ok r); [|reflexivity].
  destruct (Response.json r) as [data|e]; [|reflexivity].
  unfold bind, cast. now destruct (IdeasListResponse.of_value data).
Qed.

(** X17: the text of a listing is exactly the summaries of its ideas, in
    the order of the response and with a blank line between them, then a
    blank line and the pagination line; a listing with no idea gives the
    blank line and the pagination line alone. *)
Theorem list_ideas_text :
  forall (w : World) (r : Response.t) (log : list Request.t)
         (page per_page : Z) (listed : IdeasListResponse.t),
    Response.ok r = true ->
    Response.json r = Ok (IdeasListResponse.to_value listed) ->
    let footer :=
      "Page "
      ++ Number_toString (PaginationMeta.current_page (IdeasListResponse.meta listed))
      ++ " of "
      ++ Number_toString (PaginationMeta.total_pages (IdeasListResponse.meta listed))
      ++ " ("
      ++ Number_toString (PaginationMeta.total_count (IdeasListResponse.meta listed))
      ++ " total ideas)" in
    fst (list_ideas page per_page (answering w r) log)
    = Ok (join LFLF (map formatIdeaSummary (IdeasListResponse.ideas listed))
          ++ LFLF ++ footer)
    /\ (IdeasListResponse.ideas listed = [] ->
        fst (list_ideas page per_page (answering w r) log) = Ok (LFLF ++ footer)).
Proof.
  intros w r log page per_page listed Hok Hjson footer.
  rewrite list_ideas_answering, Hok, Hjson, IdeasListResponse_round_trip.
  split; [reflexivity|]. intros E. unfold listing. now rewrite E.
Qed.

Lemma list_ideas_text_witness :
  fst (list_ideas 9 20
         (answering offline
            (Response.mk 200 "OK" "empty"
               (Ok (IdeasListResponse.to_value
                      (IdeasListResponse.mk [] (PaginationMeta.mk 9 3 41))))))
         [])
  = Ok (LFLF ++ "Page 9 of 3 (41 total ideas)").
Proof.
  exact (proj2 (list_ideas_text offline
                  (Response.mk 200 "OK" "empty"
                     (Ok (IdeasListResponse.to_value
                            (IdeasListResponse.mk [] (PaginationMeta.mk 9 3 41)))))
                  [] 9 20
                  (IdeasListResponse.mk [] (PaginationMeta.mk 9 3 41))
                  eq_refl eq_refl)
               eq_refl).
Defined.

(** X18: a successful response that is not a listing makes [list_ideas]
    fail with a [TypeError]: this is so when the body is not an object, and
    when it is an object without [ideas] or without [meta]. *)
Theorem list_ideas_not_a_listing :
  forall (w : World) (r : Response.t) (log : list Request.t)
         (page per_page : Z) (data : value),
    Response.ok r = true ->
    Response.json r = Ok data ->
    (forall o : Obj, data = JObject o ->
                     get "ideas" o = None \/ get "meta" o = None) ->
    exists message : string,
      fst (list_ideas page per_page (answering w r) log)
      = Throw (TypeError message).
Proof.
  intros w r log page per_page data Hok Hjson Hshape.
  rewrite list_ideas_answering, Hok, Hjson.
  assert (E : IdeasListResponse.of_value data = None); [|rewrite E; eauto].
  destruct data as [| | | | |o]; try reflexivity.
  unfold IdeasListResponse.of_value. cbn [View.object View.bind].
  destruct (Hshape o eq_refl) as [H|H]; rewrite H; [reflexivity|].
  now destruct (View.array IdeaSummary.of_value (get "ideas" o)).
Qed.

Lemma list_ideas_not_a_listing_witness :
  exists message : string,
    fst (list_ideas 1 20
           (answering offline
              (Response.mk 200 "OK" "no meta"
                 (Ok (JObject [("ideas", JArray [])]))))
           [])
    = Throw (TypeError message).
Proof.
  apply (list_ideas_not_a_listing offline
           (Response.mk 200 "OK" "no meta" (Ok (JObject [("ideas", JArray [])])))
           [] 1 20 (JObject [("ideas", JArray [])]) eq_refl eq_refl).
  intros o [= <-]. now right.
Defined.

Lemma sample_lines_same_order :
  same_order_per_position
    [sample_line 3 "text" "c" 0; sample_line 1 "heading" "a" 2;
     sample_line 2 "text" "b" 0]
    [sample_line 1 "heading" "a" 2; sample_line 2 "text" "b" 0;
     sample_line 3 "text" "c" 0].
Proof.
  intros q. cbn [filter]. unfold at_key, sample_line.
  cbn [IdeaLine.position].
  destruct (Qeq_bool 3 q) eqn:E3, (Qeq_bool 1 q) eqn:E1, (Qeq_bool 2 q) eqn:E2;
    try reflexivity; exfalso;
    repeat match goal with
           | H : Qeq_bool _ _ = true |- _ => apply Qeq_bool_eq in H
           | H : Qeq_bool _ _ = false |- _ => clear H
           end;
    match goal with
    | H1 : (?a == q)%Q, H2 : (?b == q)%Q |- _ =>
        assert (X : (a == b)%Q) by (now rewrite H1, H2); discriminate X
    end.
Qed.

(** X19: the order in which the lines are rendered is fully determined:
    any arrangement of the lines that is ascending by position and keeps
    the lines of each position in their input order is the one the
    formatter renders, and the one it leaves in the idea. *)
Theorem rendered_order_is_determined :
  forall (idea : IdeaDetail.t) (arranged : list IdeaLine.t),
    ascending arranged ->
    same_order_per_position arranged (IdeaDetail.lines idea) ->
    IdeaDetail.lines (snd (formatIdeaDetail_run idea)) = arranged
    /\ fst (content idea)
       = match IdeaDetail.lines idea with
         | [] => LFLF ++ "(No content yet)"
         | _ :: _ =>
             LFLF ++ "## Content" ++ LFLF ++ join LFLF (map render_line arranged)
         end.
Proof.
  intros idea arranged Hasc Hsame.
  assert (E : Array_sort by_position (IdeaDetail.lines idea) = arranged).
  { rewrite <- (same_order_sort _ _ Hsame).
    now apply (sort_of_sorted _ IdeaLine.position by_position_negative). }
  split.
  - rewrite formatIdeaDetail_run_eq. cbn [snd]. exact E.
  - rewrite content_fst, E. destruct (IdeaDetail.lines idea); [reflexivity|].
    unfold CONTENT_HEADING. now rewrite !append_assoc.
Qed.

Lemma rendered_order_is_determined_witness :
  map IdeaLine.content
    (IdeaDetail.lines
       (snd (formatIdeaDetail_run
               (sample_idea [sample_line 3 "text" "c" 0;
                             sample_line 1 "heading" "a" 2;
                             sample_line 2 "text" "b" 0] []))))
  = ["a"; "b"; "c"].
Proof.
  rewrite (proj1 (rendered_order_is_determined
                    (sample_idea [sample_line 3 "text" "c" 0;
                                  sample_line 1 "heading" "a" 2;
                                  sample_line 2 "text" "b" 0] [])
                    [sample_line 1 "heading" "a" 2; sample_line 2 "text" "b" 0;
                     sample_line 3 "text" "c" 0]
                    ltac:(repeat constructor; unfold Qle; cbn; lia)
                    (fun q =>
                       eq_sym (sample_lines_same_order q)))).
  reflexivity.
Defined.
